(** * The AQS request pipeline: credentials, date validation, throttle,
      transport and tool dispatch

    A shallow embedding of the TypeScript sources of the EPA AQS MCP server
    (client.ts, index.ts and the tool modules under tools/) together with
    the properties the specification states about them.

    Conventions of the embedding:
    - a JavaScript string is a [string] (a sequence of bytes);
    - a value of declared type string that may be missing at run time is a
      [JsVal] (undefined, null or a string);
    - a JavaScript number that only ever holds an integer or NaN is a
      [JsNumber] ([None] is NaN);
    - [new Error(msg)] is a constructor of [AqsError], one per throw site,
      and [message] gives back the text the source builds;
    - code that throws returns an [Outcome]; code that also touches the
      process state (clock, throttle marker, environment, network) runs in
      the monad [M] over [World]. *)

From Stdlib Require Import ZArith String Ascii List Bool Lia DecimalString.
From stdpp Require Import base option gmap strings list.

#[local] Set Warnings "-register-all".

Open Scope Z_scope.

(** ** Strings *)

Module Str.

Definition code (c : ascii) : nat := nat_of_ascii c.

(** The class the regular expression writes as a backslash followed by d:
    the ten ASCII digits. *)
Definition is_digit (c : ascii) : bool :=
  (Nat.leb 48 (code c)) && (Nat.leb (code c) 57).

Definition digit_value (c : ascii) : Z := Z.of_nat (code c) - 48.

(** [s.substring(a, b)] for constant [a <= b]: positions past the end are
    clamped to the end, as [String.substring] does. *)
Definition js_substring (a b : nat) (s : string) : string :=
  String.substring a (b - a) s.

Fixpoint chars (s : string) : list ascii :=
  match s with
  | EmptyString => []
  | String c s' => c :: chars s'
  end.

(** [s.startsWith(p)] *)
Fixpoint starts_with (p s : string) : bool :=
  match p, s with
  | EmptyString, _ => true
  | String a p', String b s' => Ascii.eqb a b && starts_with p' s'
  | String _ _, EmptyString => false
  end.

(** [s.includes(p)] *)
Fixpoint includes (p s : string) : bool :=
  starts_with p s ||
  match s with
  | EmptyString => false
  | String _ s' => includes p s'
  end.

Definition lower (c : ascii) : ascii :=
  if (Nat.leb 65 (code c)) && (Nat.leb (code c) 90)
  then ascii_of_nat (code c + 32) else c.

(** [s.toLowerCase()] on the ASCII letters. *)
Fixpoint toLowerCase (s : string) : string :=
  match s with
  | EmptyString => EmptyString
  | String c s' => String (lower c) (toLowerCase s')
  end.

(** The decimal rendering of an integer, as a template literal gives it. *)
Definition of_Z (z : Z) : string := NilZero.string_of_int (Z.to_int z).

Definition dquote : string := String "034"%char EmptyString.
Definition newline : string := String "010"%char EmptyString.

End Str.

(** ** JavaScript values *)

(** What a parameter of declared type string can hold at run time. *)
Inductive JsVal :=
| VUndefined
| VNull
| VStr (s : string).

(** Truthiness, as used by [||] and [!]. *)
Definition truthy (v : JsVal) : bool :=
  match v with
  | VStr s => negb (String.eqb s "")
  | VUndefined | VNull => false
  end.

(** [a || b] *)
Definition js_or (a b : JsVal) : JsVal := if truthy a then a else b.

(** The implicit conversion to a string (template literals, RegExp.test). *)
Definition to_String (v : JsVal) : string :=
  match v with
  | VUndefined => "undefined"
  | VNull => "null"
  | VStr s => s
  end.

(** An integer-valued number or NaN. *)
Definition JsNumber := option Z.

Definition number_to_string (n : JsNumber) : string :=
  match n with
  | None => "NaN"
  | Some z => Str.of_Z z
  end.

(** [n < k] and [n > k]: every comparison with NaN is false. *)
Definition num_lt (n : JsNumber) (k : Z) : bool :=
  match n with Some z => z <? k | None => false end.
Definition num_gt (n : JsNumber) (k : Z) : bool :=
  match n with Some z => z >? k | None => false end.

(** [parseInt(s, 10)]: leading white space is skipped, one sign is read,
    then the longest run of digits; NaN when that run is empty. Only the
    ASCII white space characters are modelled. *)
Module ParseInt.

Definition is_space (c : ascii) : bool :=
  let n := Str.code c in
  (Nat.leb 9 n && Nat.leb n 13) || Nat.eqb n 32.

Fixpoint skip_space (s : string) : string :=
  match s with
  | String c s' => if is_space c then skip_space s' else s
  | EmptyString => s
  end.

Fixpoint digits (acc : Z) (s : string) : Z :=
  match s with
  | String c s' =>
      if Str.is_digit c then digits (10 * acc + Str.digit_value c) s' else acc
  | EmptyString => acc
  end.

Definition unsigned (s : string) : JsNumber :=
  match s with
  | String c _ => if Str.is_digit c then Some (digits 0 s) else None
  | EmptyString => None
  end.

Definition parseInt10 (s : string) : JsNumber :=
  match skip_space s with
  | String c s' =>
      if Nat.eqb (Str.code c) 45 then Z.opp <$> unsigned s'
      else if Nat.eqb (Str.code c) 43 then unsigned s'
      else unsigned (String c s')
  | EmptyString => None
  end.

End ParseInt.

(** ** Errors *)

Inductive CredField := FieldEmail | FieldKey.
Inductive DatePart := PartMonth | PartDay | PartYear.

(** The header record of the response envelope (types.ts, AqsHeader). *)
Record AqsHeader := mkHeader {
  status : string;
  request_time : string;
  url : string;
  rows : option Z
}.

(** JSON values; a number is kept by its canonical rendering. *)
Inductive Json :=
| JNull
| JBool (b : bool)
| JNum (repr : string)
| JStr (s : string)
| JArr (items : list Json)
| JObj (fields : list (string * Json)).

(** [JSON.stringify], compact and with an indentation of two spaces. Inside
    strings the quote, the backslash and the control characters are
    escaped. *)
Module JSON.

Definition hex_digit (n : nat) : ascii :=
  if Nat.ltb n 10 then ascii_of_nat (48 + n) else ascii_of_nat (87 + n).

Fixpoint escape (s : string) : string :=
  match s with
  | EmptyString => EmptyString
  | String c s' =>
      let n := Str.code c in
      if Nat.eqb n 34 then String "092"%char (String c (escape s'))
      else if Nat.eqb n 92 then String "092"%char (String c (escape s'))
      else if Nat.eqb n 8 then String "092"%char (String "b"%char (escape s'))
      else if Nat.eqb n 12 then String "092"%char (String "f"%char (escape s'))
      else if Nat.eqb n 10 then String "092"%char (String "n"%char (escape s'))
      else if Nat.eqb n 13 then String "092"%char (String "r"%char (escape s'))
      else if Nat.eqb n 9 then String "092"%char (String "t"%char (escape s'))
      else if Nat.ltb n 32 then
        String "092"%char
          (String "u"%char
             (String "0"%char
                (String "0"%char
                   (String (hex_digit (Nat.div n 16))
                      (String (hex_digit (Nat.modulo n 16)) (escape s'))))))
      else String c (escape s')
  end.

Definition quote (s : string) : string :=
  Str.dquote +:+ escape s +:+ Str.dquote.

Fixpoint join (sep : string) (l : list string) : string :=
  match l with
  | [] => EmptyString
  | [x] => x
  | x :: rest => x +:+ sep +:+ join sep rest
  end.

Fixpoint spaces (n : nat) : string :=
  match n with
  | O => EmptyString
  | S n' => String " "%char (spaces n')
  end.

Fixpoint stringify (j : Json) : string :=
  match j with
  | JNull => "null"
  | JBool b => if b then "true" else "false"
  | JNum r => r
  | JStr s => quote s
  | JArr items => "[" +:+ join "," (List.map stringify items) +:+ "]"
  | JObj fields =>
      "{" +:+
      join "," (List.map (fun kv => quote (fst kv) +:+ ":" +:+ stringify (snd kv)) fields)
      +:+ "}"
  end.

Fixpoint pretty_at (depth : nat) (j : Json) : string :=
  let inner := Str.newline +:+ spaces (2 * S depth) in
  let outer := Str.newline +:+ spaces (2 * depth) in
  match j with
  | JArr [] => "[]"
  | JObj [] => "{}"
  | JArr items =>
      "[" +:+ inner +:+
      join ("," +:+ inner) (List.map (pretty_at (S depth)) items)
      +:+ outer +:+ "]"
  | JObj fields =>
      "{" +:+ inner +:+
      join ("," +:+ inner)
        (List.map (fun kv => quote (fst kv) +:+ ": " +:+ pretty_at (S depth) (snd kv)) fields)
      +:+ outer +:+ "}"
  | _ => stringify j
  end.

(** [JSON.stringify(j, null, 2)] *)
Definition pretty (j : Json) : string := pretty_at 0 j.

(** An object literal drops the properties whose value is undefined. *)
Definition obj (fields : list (string * option Json)) : Json :=
  JObj (omap (fun kv => pair (fst kv) <$> snd kv) fields).

Definition of_header (h : AqsHeader) : Json :=
  obj [ ("status", Some (JStr (status h)));
        ("request_time", Some (JStr (request_time h)));
        ("url", Some (JStr (url h)));
        ("rows", (fun n => JNum (Str.of_Z n)) <$> rows h) ].

End JSON.

(** One constructor for each [new Error(...)] of the sources, and one for
    the Error objects the runtime raises (a rejected fetch, a body that is
    not JSON). *)
Inductive AqsError :=
| MissingCredential (field : CredField)
| InvalidDateFormat (fieldName : string) (date : string)
| InvalidDateValue (fieldName : string) (part : DatePart) (value : JsNumber)
| CrossYearRange (bdate edate : string)
| HttpStatusError (code : Z) (reason : string)
| ApiStatusError (header : AqsHeader)
| RuntimeError (msg : string)
| TransportError (cause : AqsError).

Definition part_name (p : DatePart) : string :=
  match p with
  | PartMonth => "month"
  | PartDay => "day"
  | PartYear => "year"
  end.

(** [error.message] *)
Fixpoint message (e : AqsError) : string :=
  match e with
  | MissingCredential FieldEmail =>
      "Email is required. Provide it as a parameter or set AQS_EMAIL environment variable."
  | MissingCredential FieldKey =>
      "API key is required. Provide it as a parameter or set AQS_API_KEY environment variable."
  | InvalidDateFormat fieldName date =>
      fieldName +:+ " must be in YYYYMMDD format. Got: " +:+ date
  | InvalidDateValue fieldName part value =>
      fieldName +:+ " has invalid " +:+ part_name part +:+ ": " +:+ number_to_string value
  | CrossYearRange bdate edate =>
      "Begin date (" +:+ bdate +:+ ") and end date (" +:+ edate +:+
      ") must be in the same calendar year. " +:+
      "Got years " +:+ Str.js_substring 0 4 bdate +:+ " and " +:+
      Str.js_substring 0 4 edate +:+ "."
  | HttpStatusError code reason =>
      "HTTP " +:+ Str.of_Z code +:+ ": " +:+ reason
  | ApiStatusError header =>
      "AQS API Error: " +:+ JSON.stringify (JSON.of_header header)
  | RuntimeError msg => msg
  | TransportError cause =>
      "AQS API request failed: " +:+ message cause
  end.

(** A thrown value: an Error object, or anything else (kept by its
    rendering as a string). *)
Inductive Thrown :=
| ThrowError (e : AqsError)
| ThrowOther (rendering : string).

Inductive Outcome (A : Type) :=
| Ok (a : A)
| Throw (t : Thrown).
Arguments Ok {A} a.
Arguments Throw {A} t.

Definition raise {A} (e : AqsError) : Outcome A := Throw (ThrowError e).

(** ** Date validators (client.ts) *)

(** The regular expression of validateDateFormat: start of input, a given
    number of digits, end of input. *)
Fixpoint match_digits (n : nat) (s : string) : bool :=
  match n, s with
  | O, EmptyString => true
  | O, String _ _ => false
  | S n', String c s' => Str.is_digit c && match_digits n' s'
  | S _, EmptyString => false
  end.

Definition validateDateFormat (date fieldName : string) : Outcome unit :=
  if negb (match_digits 8 date) then raise (InvalidDateFormat fieldName date)
  else
    let year := ParseInt.parseInt10 (Str.js_substring 0 4 date) in
    let month := ParseInt.parseInt10 (Str.js_substring 4 6 date) in
    let day := ParseInt.parseInt10 (Str.js_substring 6 8 date) in
    if num_lt month 1 || num_gt month 12
    then raise (InvalidDateValue fieldName PartMonth month)
    else if num_lt day 1 || num_gt day 31
    then raise (InvalidDateValue fieldName PartDay day)
    else if num_lt year 1900 || num_gt year 2100
    then raise (InvalidDateValue fieldName PartYear year)
    else Ok tt.

Definition validateDateRange (bdate edate : string) : Outcome unit :=
  let beginYear := Str.js_substring 0 4 bdate in
  let endYear := Str.js_substring 0 4 edate in
  if negb (String.eqb beginYear endYear)
  then raise (CrossYearRange bdate edate)
  else Ok tt.

(** ** Credentials (client.ts) *)

Record Credentials := mkCredentials {
  cred_email : JsVal;
  cred_key : JsVal
}.

(** [process.env.NAME]: a string, or undefined. *)
Definition env_get (env : gmap string string) (name : string) : JsVal :=
  match env !! name with
  | Some s => VStr s
  | None => VUndefined
  end.

Definition getDefaultCredentials (env : gmap string string) : Credentials :=
  {| cred_email := env_get env "AQS_EMAIL";
     cred_key := env_get env "AQS_API_KEY" |}.

Definition resolveCredentials (env : gmap string string)
    (providedEmail providedKey : JsVal) : Outcome Credentials :=
  let defaults := getDefaultCredentials env in
  let email := js_or providedEmail (cred_email defaults) in
  let key := js_or providedKey (cred_key defaults) in
  if negb (truthy email) then raise (MissingCredential FieldEmail)
  else if negb (truthy key) then raise (MissingCredential FieldKey)
  else Ok {| cred_email := email; cred_key := key |}.

(** ** URLs *)

(** A URL object in parsed form: the text up to the query, and the query
    pairs in the order they were appended. Endpoint paths are the literals
    of the tool modules; none holds a question mark, a hash or a dot
    segment, so the parser leaves them as they are. *)
Record Url := mkUrl {
  href : string;
  searchParams : list (string * string)
}.

Module URL.

(** [new URL(text)] for a text without query. *)
Definition new (text : string) : Url :=
  {| href := text; searchParams := [] |}.

(** [url.searchParams.append(key, value)] *)
Definition append (u : Url) (key value : string) : Url :=
  {| href := href u; searchParams := searchParams u ++ [(key, value)] |}.

Definition hex_digit (n : nat) : ascii :=
  if Nat.ltb n 10 then ascii_of_nat (48 + n) else ascii_of_nat (55 + n).

(** The form-urlencoded byte serializer: letters, digits and the four
    marks star, hyphen, dot and underscore stay; a space becomes a plus
    sign; every other byte is percent-encoded. *)
Definition encode_byte (c : ascii) : string :=
  let n := Str.code c in
  if (Nat.leb 48 n && Nat.leb n 57) || (Nat.leb 65 n && Nat.leb n 90)
     || (Nat.leb 97 n && Nat.leb n 122)
     || Nat.eqb n 42 || Nat.eqb n 45 || Nat.eqb n 46 || Nat.eqb n 95
  then String c EmptyString
  else if Nat.eqb n 32 then "+"
  else String "%"%char
         (String (hex_digit (Nat.div n 16))
            (String (hex_digit (Nat.modulo n 16)) EmptyString)).

Fixpoint encode (s : string) : string :=
  match s with
  | EmptyString => EmptyString
  | String c s' => encode_byte c +:+ encode s'
  end.

(** [url.toString()] *)
Definition toString (u : Url) : string :=
  match searchParams u with
  | [] => href u
  | q =>
      href u +:+ "?" +:+
      JSON.join "&" (List.map (fun kv => encode (fst kv) +:+ "=" +:+ encode (snd kv)) q)
  end.

End URL.

(** ** Objects used as parameter maps *)

(** A [Record<string, string>] built by an object literal: the properties
    in insertion order, each key once. *)
Definition Params := list (string * JsVal).

(** Setting a property: an existing key keeps its place and takes the new
    value, a new key goes last. *)
Fixpoint obj_set (o : Params) (k : string) (v : JsVal) : Params :=
  match o with
  | [] => [(k, v)]
  | (k', v') :: rest =>
      if String.eqb k' k then (k', v) :: rest else (k', v') :: obj_set rest k v
  end.

(** [{ ...a, ...b }] *)
Definition obj_spread (a b : Params) : Params :=
  fold_left (fun o kv => obj_set o (fst kv) (snd kv)) b a.

(** The arguments object of a tool call; a missing property reads as
    undefined. *)
Definition arg (args : gmap string JsVal) (k : string) : JsVal :=
  default VUndefined (args !! k).

(** ** Response envelope and HTTP (types.ts, fetch) *)

Record AqsResponse := mkResponse {
  Header : option (list AqsHeader);
  Data : list Json
}.

(** What fetch resolves to: the status line, and what reading the body as
    JSON gives (a thrown SyntaxError or the envelope). *)
Record HttpResponse := mkHttp {
  http_status : Z;
  http_statusText : string;
  http_json : Thrown + AqsResponse
}.

(** [response.ok]: the status is in the range 200 to 299. *)
Definition response_ok (r : HttpResponse) : bool :=
  (200 <=? http_status r) && (http_status r <=? 299).

Inductive FetchResult :=
| FetchRejected (t : Thrown)
| FetchResolved (r : HttpResponse).

(** ** Process state *)

Definition RATE_LIMIT_MS : Z := 5000.
Definition AQS_BASE_URL : string := "https://aqs.epa.gov/data/api".

(** - [now]: the wall clock read by Date.now(), in milliseconds;
    - [delays]: how much longer than asked each coming suspension lasts
      (a timer never fires early: the entries are meant to be non-negative);
    - [lastRequestTime]: the throttle marker of client.ts, 0 for never;
    - [env]: process.env;
    - [network]: what the n-th GET of the process answers;
    - [requests]: the GETs issued so far, oldest first, each with the
      clock reading at which it was issued;
    - [stderr]: the lines written by console.error. *)
Record World := mkWorld {
  now : Z;
  delays : list Z;
  lastRequestTime : Z;
  env : gmap string string;
  network : nat -> Url -> FetchResult;
  requests : list (Z * Url);
  stderr : list string
}.

Definition M (A : Type) : Type := World -> Outcome A * World.

Definition ret {A} (a : A) : M A := fun w => (Ok a, w).

Definition bind {A B} (m : M A) (k : A -> M B) : M B :=
  fun w =>
    match m w with
    | (Ok a, w') => k a w'
    | (Throw t, w') => (Throw t, w')
    end.

Definition throw {A} (t : Thrown) : M A := fun w => (Throw t, w).

Definition lift {A} (o : Outcome A) : M A := fun w => (o, w).

(** [try { body } catch (error) { handler(error) }] *)
Definition try_catch {A} (body : M A) (handler : Thrown -> M A) : M A :=
  fun w =>
    match body w with
    | (Ok a, w') => (Ok a, w')
    | (Throw t, w') => handler t w'
    end.

Declare Scope aqs_scope.
Delimit Scope aqs_scope with aqs.
Notation "x <- c ;; k" := (bind c (fun x => k))
  (at level 100, c at next level, right associativity) : aqs_scope.
Notation "c ;;; k" := (bind c (fun _ => k))
  (at level 100, k at level 200, right associativity) : aqs_scope.
Open Scope aqs_scope.

(** Time passes: the clock moves on by [d]. *)
Definition advance (d : Z) (w : World) : World :=
  {| now := now w + d; delays := delays w; lastRequestTime := lastRequestTime w;
     env := env w; network := network w; requests := requests w;
     stderr := stderr w |}.

(** A suspension asked to last [ms]: it lasts [ms] (not less than zero)
    plus the next entry of [delays]. *)
Definition suspend (ms : Z) : M unit :=
  fun w =>
    (Ok tt,
     {| now := now w + Z.max 0 ms + hd 0 (delays w); delays := tl (delays w);
        lastRequestTime := lastRequestTime w; env := env w;
        network := network w; requests := requests w; stderr := stderr w |}).

Definition Date_now : M Z := fun w => (Ok (now w), w).

Definition console_error (line : string) : M unit :=
  fun w =>
    (Ok tt,
     {| now := now w; delays := delays w; lastRequestTime := lastRequestTime w;
        env := env w; network := network w; requests := requests w;
        stderr := stderr w ++ [line] |}).

Definition get_lastRequestTime : M Z := fun w => (Ok (lastRequestTime w), w).

Definition set_lastRequestTime (t : Z) : M unit :=
  fun w =>
    (Ok tt,
     {| now := now w; delays := delays w; lastRequestTime := t;
        env := env w; network := network w; requests := requests w;
        stderr := stderr w |}).

Definition get_env : M (gmap string string) := fun w => (Ok (env w), w).

(** [fetch(url)]: the GET is issued, then the caller is suspended until
    the answer (or the failure) arrives. *)
Definition fetch (u : Url) : M HttpResponse :=
  fun w =>
    let answer := network w (List.length (requests w)) u in
    let w' :=
      {| now := now w + hd 0 (delays w); delays := tl (delays w);
         lastRequestTime := lastRequestTime w; env := env w;
         network := network w; requests := requests w ++ [(now w, u)];
         stderr := stderr w |} in
    match answer with
    | FetchRejected t => (Throw t, w')
    | FetchResolved r => (Ok r, w')
    end.

(** [response.json()] *)
Definition response_json (r : HttpResponse) : M AqsResponse :=
  suspend 0 ;;;
  match http_json r with
  | inl t => throw t
  | inr d => ret d
  end.

(** ** The client (client.ts) *)

Definition sleep (ms : Z) : M unit := suspend ms.

Definition enforceRateLimit : M unit :=
  now_ <- Date_now ;;
  last <- get_lastRequestTime ;;
  let timeSinceLastRequest := now_ - last in
  (if (timeSinceLastRequest <? RATE_LIMIT_MS) && (last >? 0) then
     let waitTime := RATE_LIMIT_MS - timeSinceLastRequest in
     console_error ("[AQS] Rate limiting: waiting " +:+ Str.of_Z waitTime +:+
                    "ms before next request") ;;;
     sleep waitTime
   else ret tt) ;;;
  t <- Date_now ;;
  set_lastRequestTime t.

Definition buildUrl (endpoint : string) (params : Params) : Url :=
  let url := URL.new (AQS_BASE_URL +:+ "/" +:+ endpoint) in
  fold_left
    (fun url kv =>
       match snd kv with
       | VUndefined => url
       | VNull => url
       | VStr value =>
           if negb (String.eqb value "") then URL.append url (fst kv) value
           else url
       end)
    params url.

Definition header_failed (data : AqsResponse) : option AqsHeader :=
  match Header data with
  | Some (header :: _) =>
      if String.eqb (status header) "Failed" then Some header else None
  | Some [] => None
  | None => None
  end.

Definition aqs (endpoint : string) (params : Params) : M AqsResponse :=
  enforceRateLimit ;;;
  let url := buildUrl endpoint params in
  console_error ("[AQS] Requesting: " +:+ endpoint) ;;;
  try_catch
    (response <- fetch url ;;
     if negb (response_ok response) then
       throw (ThrowError
                (HttpStatusError (http_status response) (http_statusText response)))
     else
       data <- response_json response ;;
       match header_failed data with
       | Some header => throw (ThrowError (ApiStatusError header))
       | None => ret data
       end)
    (fun error =>
       match error with
       | ThrowError e => throw (ThrowError (TransportError e))
       | ThrowOther _ => throw error
       end).

(** ** Tools (tools/*.ts) *)

Record TextContent := mkText { text : string }.

(** What a handler (or the dispatcher) answers: the content items, and the
    isError flag when the object literal sets one. *)
Record ToolResult := mkResult {
  content : list TextContent;
  isError : option bool
}.

Definition text_result (s : string) : ToolResult :=
  {| content := [ {| text := s |} ]; isError := None |}.

(** A tool: its name and its handler. The description and the input
    schema are static text that no handler reads; they are left out. The
    handler receives the arguments object of the call. *)
Record McpTool := mkTool {
  name : string;
  handler : gmap string JsVal -> M ToolResult
}.

(** [error instanceof Error ? error.message : fallback] *)
Definition message_or (fallback : string) (error : Thrown) : string :=
  match error with
  | ThrowError e => message e
  | ThrowOther _ => fallback
  end.

(** resolveCredentials reads process.env when it is called. *)
Definition resolveCredentialsM (providedEmail providedKey : JsVal) : M Credentials :=
  e <- get_env ;; lift (resolveCredentials e providedEmail providedKey).

(** [response.Header?.[0]] *)
Definition first_header (response : AqsResponse) : option AqsHeader :=
  match Header response with
  | Some (h :: _) => Some h
  | _ => None
  end.

(** [value || fallback] for strings *)
Definition str_or (value : option string) (fallback : string) : string :=
  match value with
  | Some s => if String.eqb s "" then fallback else s
  | None => fallback
  end.

Definition response_json_value (response : AqsResponse) : Json :=
  JSON.obj [ ("Header", (fun hs => JArr (List.map JSON.of_header hs)) <$> Header response);
             ("Data", Some (JArr (Data response))) ].

Definition count_json (n : nat) : Json := JNum (Str.of_Z (Z.of_nat n)).

(** *** signup.ts *)

Definition status_is_success (status : string) : bool :=
  String.eqb status "Success" || Str.includes "success" (Str.toLowerCase status).

Definition signupTool : McpTool :=
  {| name := "aqs_signup";
     handler := fun args =>
       let email := arg args "email" in
       match email with
       | VUndefined | VNull =>
           ret (text_result "Error: Email address is required for API key registration.")
       | VStr email_s =>
           if negb (truthy email) then
             ret (text_result "Error: Email address is required for API key registration.")
           else if negb (Str.includes "@" email_s) || negb (Str.includes "." email_s) then
             ret (text_result "Error: Please provide a valid email address.")
           else
             try_catch
               (response <- aqs "signup" [("email", email)] ;;
                let header := first_header response in
                let status_ := str_or (status <$> header) "Unknown" in
                if status_is_success status_ then
                  ret (text_result
                         ("API key registration successful!" +:+ Str.newline +:+ Str.newline +:+
                          "An API key has been sent to: " +:+ email_s +:+ Str.newline +:+ Str.newline +:+
                          "Please check your email (including spam folder) for the API key. " +:+
                          "Once received, you can use it with the AQS_API_KEY environment variable " +:+
                          "or pass it directly to API calls."))
                else
                  ret (text_result
                         ("Signup response: " +:+ JSON.pretty (response_json_value response))))
               (fun error =>
                  let errorMessage := message_or "Unknown error occurred" error in
                  ret (text_result ("Error during signup: " +:+ errorMessage)))
       end |}.

Definition isAvailableTool : McpTool :=
  {| name := "aqs_is_available";
     handler := fun args =>
       try_catch
         (c <- resolveCredentialsM (arg args "email") (arg args "key") ;;
          response <- aqs "metaData/isAvailable"
                        [("email", cred_email c); ("key", cred_key c)] ;;
          let header := first_header response in
          let status_ := str_or (status <$> header) "Unknown" in
          if status_is_success status_ then
            ret (text_result
                   ("EPA AQS API Status: AVAILABLE" +:+ Str.newline +:+ Str.newline +:+
                    "The API is operational and responding to requests." +:+ Str.newline +:+
                    "Request time: " +:+ str_or (request_time <$> header) "N/A"))
          else
            ret (text_result
                   ("EPA AQS API Status: " +:+ status_ +:+ Str.newline +:+ Str.newline +:+
                    "Response: " +:+ JSON.pretty (response_json_value response))))
         (fun error =>
            let errorMessage := message_or "Unknown error occurred" error in
            if Str.includes "Email is required" errorMessage
               || Str.includes "API key is required" errorMessage
            then
              ret (text_result
                     ("Credentials required: " +:+ errorMessage +:+ Str.newline +:+ Str.newline +:+
                      "Provide email and key parameters, or set AQS_EMAIL and AQS_API_KEY environment variables."))
            else
              ret (text_result
                     ("EPA AQS API Status: UNAVAILABLE or ERROR" +:+ Str.newline +:+ Str.newline +:+
                      "Error: " +:+ errorMessage))) |}.

Definition signupTools : list McpTool := [signupTool; isAvailableTool].

(** *** lists.ts *)

(** The properties [k: args.k] of an object literal, for the keys [ks]. *)
Definition pick (args : gmap string JsVal) (ks : list string) : Params :=
  List.map (fun k => (k, arg args k)) ks.

(** The six list handlers differ in the endpoint and in the properties
    they forward after email and key. *)
Definition list_handler (endpoint : string) (forwarded : list string)
    (args : gmap string JsVal) : M ToolResult :=
  c <- resolveCredentialsM (arg args "email") (arg args "key") ;;
  response <- aqs endpoint
                ([("email", cred_email c); ("key", cred_key c)] ++ pick args forwarded) ;;
  ret (text_result (JSON.pretty (JArr (Data response)))).

Definition listStatesTool : McpTool :=
  {| name := "aqs_list_states"; handler := list_handler "list/states" [] |}.
Definition listCountiesTool : McpTool :=
  {| name := "aqs_list_counties";
     handler := list_handler "list/countiesByState" ["state"] |}.
Definition listSitesTool : McpTool :=
  {| name := "aqs_list_sites";
     handler := list_handler "list/sitesByCounty" ["state"; "county"] |}.
Definition listCbsasTool : McpTool :=
  {| name := "aqs_list_cbsas"; handler := list_handler "list/cbsas" [] |}.
Definition listParameterClassesTool : McpTool :=
  {| name := "aqs_list_parameter_classes"; handler := list_handler "list/classes" [] |}.
Definition listParametersTool : McpTool :=
  {| name := "aqs_list_parameters";
     handler := list_handler "list/parametersByClass" ["pc"] |}.

Definition listTools : list McpTool :=
  [listStatesTool; listCountiesTool; listSitesTool; listCbsasTool;
   listParameterClassesTool; listParametersTool].

(** *** The date-taking handlers *)

(** The statements every handler of monitors.ts, samples.ts, daily.ts and
    quarterly.ts starts with: credentials, the two format checks, the range
    check, then the request with email, key, param, bdate, edate and the
    location properties. The validators receive the argument as it is; a
    missing one is converted to a string by the test and by the template
    literal. *)
Definition dated_request (endpoint : string) (location : list string)
    (args : gmap string JsVal) : M AqsResponse :=
  c <- resolveCredentialsM (arg args "email") (arg args "key") ;;
  let bdate := arg args "bdate" in
  let edate := arg args "edate" in
  lift (validateDateFormat (to_String bdate) "bdate") ;;;
  lift (validateDateFormat (to_String edate) "edate") ;;;
  lift (validateDateRange (to_String bdate) (to_String edate)) ;;;
  aqs endpoint
    ([("email", cred_email c); ("key", cred_key c); ("param", arg args "param");
      ("bdate", bdate); ("edate", edate)] ++ pick args location).

(** *** monitors.ts *)

(** [m.field] on a parsed record *)
Definition field (m : Json) (k : string) : option Json :=
  match m with
  | JObj fields => snd <$> List.find (fun kv => String.eqb (fst kv) k) (rev fields)
  | _ => None
  end.

Definition monitor_fields : list string :=
  ["state_code"; "county_code"; "site_number"; "parameter_code"; "parameter_name";
   "poc"; "latitude"; "longitude"; "first_year_of_data"; "last_sample_date";
   "local_site_name"; "city_name"; "cbsa_name"; "measurement_scale";
   "monitoring_objective"; "networks"].

Definition formatMonitorResponse (monitors : list Json) (endpoint : string) : string :=
  match monitors with
  | [] =>
      JSON.pretty
        (JSON.obj [ ("message", Some (JStr "No monitors found matching the specified criteria."));
                    ("endpoint", Some (JStr endpoint));
                    ("count", Some (count_json 0)) ])
  | _ =>
      JSON.pretty
        (JSON.obj [ ("endpoint", Some (JStr endpoint));
                    ("count", Some (count_json (List.length monitors)));
                    ("monitors",
                     Some (JArr (List.map
                                   (fun m => JSON.obj (List.map (fun k => (k, field m k)) monitor_fields))
                                   monitors))) ])
  end.

Definition monitor_handler (endpoint : string) (location : list string)
    (args : gmap string JsVal) : M ToolResult :=
  try_catch
    (response <- dated_request endpoint location args ;;
     ret (text_result (formatMonitorResponse (Data response) endpoint)))
    (fun error =>
       let message_ := message_or "Unknown error occurred" error in
       ret (text_result (JSON.pretty (JSON.obj [("error", Some (JStr message_))])))).

Definition monitorsBySite : McpTool :=
  {| name := "aqs_monitors_by_site";
     handler := monitor_handler "monitors/bySite" ["state"; "county"; "site"] |}.
Definition monitorsByCounty : McpTool :=
  {| name := "aqs_monitors_by_county";
     handler := monitor_handler "monitors/byCounty" ["state"; "county"] |}.
Definition monitorsByState : McpTool :=
  {| name := "aqs_monitors_by_state";
     handler := monitor_handler "monitors/byState" ["state"] |}.
Definition monitorsByBox : McpTool :=
  {| name := "aqs_monitors_by_box";
     handler := monitor_handler "monitors/byBox" ["minlat"; "maxlat"; "minlon"; "maxlon"] |}.
Definition monitorsByCbsa : McpTool :=
  {| name := "aqs_monitors_by_cbsa";
     handler := monitor_handler "monitors/byCBSA" ["cbsa"] |}.

Definition monitorTools : list McpTool :=
  [monitorsBySite; monitorsByCounty; monitorsByState; monitorsByBox; monitorsByCbsa].

(** *** samples.ts *)

Definition formatSampleDataResponse (data : list Json) (endpoint : string) : string :=
  match data with
  | [] =>
      JSON.stringify
        (JSON.obj [ ("message", Some (JStr "No sample data found for the specified parameters."));
                    ("endpoint", Some (JStr endpoint));
                    ("count", Some (count_json 0)) ])
  | _ =>
      JSON.stringify
        (JSON.obj [ ("message",
                     Some (JStr ("Retrieved " +:+ Str.of_Z (Z.of_nat (List.length data)) +:+
                                 " sample data records.")));
                    ("endpoint", Some (JStr endpoint));
                    ("count", Some (count_json (List.length data)));
                    ("data", Some (JArr data)) ])
  end.

Definition sample_handler (endpoint : string) (location : list string)
    (params : gmap string JsVal) : M ToolResult :=
  response <- dated_request endpoint location params ;;
  ret (text_result (formatSampleDataResponse (Data response) endpoint)).

Definition sampleDataBySite : McpTool :=
  {| name := "aqs_sample_data_by_site";
     handler := sample_handler "sampleData/bySite" ["state"; "county"; "site"] |}.
Definition sampleDataByCounty : McpTool :=
  {| name := "aqs_sample_data_by_county";
     handler := sample_handler "sampleData/byCounty" ["state"; "county"] |}.
Definition sampleDataByState : McpTool :=
  {| name := "aqs_sample_data_by_state";
     handler := sample_handler "sampleData/byState" ["state"] |}.
Definition sampleDataByBox : McpTool :=
  {| name := "aqs_sample_data_by_box";
     handler := sample_handler "sampleData/byBox" ["minlat"; "maxlat"; "minlon"; "maxlon"] |}.
Definition sampleDataByCbsa : McpTool :=
  {| name := "aqs_sample_data_by_cbsa";
     handler := sample_handler "sampleData/byCBSA" ["cbsa"] |}.

Definition sampleDataTools : list McpTool :=
  [sampleDataBySite; sampleDataByCounty; sampleDataByState; sampleDataByBox;
   sampleDataByCbsa].

(** *** daily.js *)

Definition formatDailyResponse (data : list Json) (endpoint : string) : string :=
  match data with
  | [] =>
      JSON.pretty
        (JSON.obj [ ("message", Some (JStr "No data found for the specified query parameters."));
                    ("endpoint", Some (JStr endpoint));
                    ("rowCount", Some (count_json 0)) ])
  | _ =>
      JSON.pretty
        (JSON.obj [ ("endpoint", Some (JStr endpoint));
                    ("rowCount", Some (count_json (List.length data)));
                    ("data", Some (JArr data)) ])
  end.

Definition daily_handler (endpoint : string) (location : list string)
    (params : gmap string JsVal) : M ToolResult :=
  response <- dated_request endpoint location params ;;
  ret (text_result (formatDailyResponse (Data response) endpoint)).

Definition dailySummaryBySite : McpTool :=
  {| name := "aqs_daily_summary_by_site";
     handler := daily_handler "dailyData/bySite" ["state"; "county"; "site"] |}.
Definition dailySummaryByCounty : McpTool :=
  {| name := "aqs_daily_summary_by_county";
     handler := daily_handler "dailyData/byCounty" ["state"; "county"] |}.
Definition dailySummaryByState : McpTool :=
  {| name := "aqs_daily_summary_by_state";
     handler := daily_handler "dailyData/byState" ["state"] |}.
Definition dailySummaryByBox : McpTool :=
  {| name := "aqs_daily_summary_by_box";
     handler := daily_handler "dailyData/byBox" ["minlat"; "maxlat"; "minlon"; "maxlon"] |}.
Definition dailySummaryByCbsa : McpTool :=
  {| name := "aqs_daily_summary_by_cbsa";
     handler := daily_handler "dailyData/byCBSA" ["cbsa"] |}.

Definition dailyTools : list McpTool :=
  [dailySummaryBySite; dailySummaryByCounty; dailySummaryByState; dailySummaryByBox;
   dailySummaryByCbsa].

(** *** quarterly.js *)

Definition quarterly_handler (endpoint : string) (location : list string)
    (params : gmap string JsVal) : M ToolResult :=
  response <- dated_request endpoint location params ;;
  ret (text_result (JSON.pretty (response_json_value response))).

Definition quarterlySummaryBySite : McpTool :=
  {| name := "aqs_quarterly_summary_by_site";
     handler := quarterly_handler "quarterlyData/bySite" ["state"; "county"; "site"] |}.
Definition quarterlySummaryByCounty : McpTool :=
  {| name := "aqs_quarterly_summary_by_county";
     handler := quarterly_handler "quarterlyData/byCounty" ["state"; "county"] |}.
Definition quarterlySummaryByState : McpTool :=
  {| name := "aqs_quarterly_summary_by_state";
     handler := quarterly_handler "quarterlyData/byState" ["state"] |}.

Definition quarterlyTools : list McpTool :=
  [quarterlySummaryBySite; quarterlySummaryByCounty; quarterlySummaryByState].

(** *** annual.ts *)

Definition formatAnnualResponse (data : list Json) (rowCount : option Z) : string :=
  match data with
  | [] => "No annual summary data found for the specified criteria."
  | _ =>
      JSON.pretty
        (JSON.obj [ ("recordCount", Some (count_json (List.length data)));
                    ("reportedRows", (fun n => JNum (Str.of_Z n)) <$> rowCount);
                    ("data", Some (JArr data)) ])
  end.

Definition handleAnnualRequest (endpoint : string) (params : gmap string JsVal)
    (locationParams : Params) : M ToolResult :=
  try_catch
    (c <- resolveCredentialsM (arg params "email") (arg params "key") ;;
     lift (validateDateFormat (to_String (arg params "bdate")) "bdate") ;;;
     lift (validateDateFormat (to_String (arg params "edate")) "edate") ;;;
     lift (validateDateRange (to_String (arg params "bdate")) (to_String (arg params "edate"))) ;;;
     let requestParams :=
       obj_spread
         [("email", cred_email c); ("key", cred_key c); ("param", arg params "param");
          ("bdate", arg params "bdate"); ("edate", arg params "edate")]
         locationParams in
     response <- aqs endpoint requestParams ;;
     let text_ := formatAnnualResponse (Data response)
                    (first_header response ≫= rows) in
     ret (text_result text_))
    (fun error =>
       let errorMessage := message_or "Unknown error occurred" error in
       ret (text_result ("Error: " +:+ errorMessage))).

Definition annualSummaryBySite : McpTool :=
  {| name := "aqs_annual_summary_by_site";
     handler := fun params =>
       handleAnnualRequest "annualData/bySite" params (pick params ["state"; "county"; "site"]) |}.
Definition annualSummaryByCounty : McpTool :=
  {| name := "aqs_annual_summary_by_county";
     handler := fun params =>
       handleAnnualRequest "annualData/byCounty" params (pick params ["state"; "county"]) |}.
Definition annualSummaryByState : McpTool :=
  {| name := "aqs_annual_summary_by_state";
     handler := fun params =>
       handleAnnualRequest "annualData/byState" params (pick params ["state"]) |}.
Definition annualSummaryByBox : McpTool :=
  {| name := "aqs_annual_summary_by_box";
     handler := fun params =>
       handleAnnualRequest "annualData/byBox" params
         (pick params ["minlat"; "maxlat"; "minlon"; "maxlon"]) |}.
Definition annualSummaryByCbsa : McpTool :=
  {| name := "aqs_annual_summary_by_cbsa";
     handler := fun params =>
       handleAnnualRequest "annualData/byCBSA" params (pick params ["cbsa"]) |}.

Definition annualTools : list McpTool :=
  [annualSummaryBySite; annualSummaryByCounty; annualSummaryByState; annualSummaryByBox;
   annualSummaryByCbsa].

(** ** Dispatch (index.ts) *)

Definition allTools : list McpTool :=
  signupTools ++ listTools ++ monitorTools ++ sampleDataTools ++ dailyTools
  ++ quarterlyTools ++ annualTools.

(** [new Map(tools.map(tool => [tool.name, tool]))]: a later entry with
    the same name replaces an earlier one. *)
Definition tool_map (tools : list McpTool) : gmap string McpTool :=
  fold_left (fun m tool => <[name tool := tool]> m) tools ∅.

Definition toolMap : gmap string McpTool := tool_map allTools.

(** The CallToolRequest handler, over any tool table. *)
Definition dispatch (tools : gmap string McpTool) (name_ : string)
    (args : gmap string JsVal) : M ToolResult :=
  match tools !! name_ with
  | None =>
      ret {| content := [ {| text := "Unknown tool: " +:+ name_ |} ];
             isError := Some true |}
  | Some tool =>
      try_catch
        (handler tool args)
        (fun error =>
           let errorMessage :=
             match error with
             | ThrowError e => message e
             | ThrowOther rendering => rendering
             end in
           ret {| content := [ {| text := "Error: " +:+ errorMessage |} ];
                  isError := Some true |})
  end.

Definition callTool (name_ : string) (args : gmap string JsVal) : M ToolResult :=
  dispatch toolMap name_ args.

(** ** Serving a sequence of tool calls *)

(** The host hands over one call at a time: a call is served to its end
    before the next one starts, [idle_before] milliseconds later. *)
Record ToolCall := mkCall {
  idle_before : Z;
  tool_name : string;
  arguments : gmap string JsVal
}.

Fixpoint serve (calls : list ToolCall) (w : World) : World :=
  match calls with
  | [] => w
  | c :: rest =>
      serve rest (snd (callTool (tool_name c) (arguments c) (advance (idle_before c) w)))
  end.

(** The clock readings at which the GETs of a world were issued. *)
Definition request_starts (w : World) : list Z := List.map fst (requests w).

(** ** Vocabulary of the specification *)

(** Exactly eight ASCII digits. *)
Definition is_date_token (s : string) : Prop :=
  String.length s = 8%nat /\ Forall (fun c => Str.is_digit c = true) (Str.chars s).

(** The number a run of digits denotes. *)
Definition decimal (s : string) : Z :=
  fold_left (fun acc c => 10 * acc + Str.digit_value c) (Str.chars s) 0.

Definition year_of (date : string) : Z := decimal (Str.js_substring 0 4 date).
Definition month_of (date : string) : Z := decimal (Str.js_substring 4 6 date).
Definition day_of (date : string) : Z := decimal (Str.js_substring 6 8 date).

(** A credential source yields a value: it holds a string that is not empty. *)
Definition yields (v : JsVal) : Prop := exists s, v = VStr s /\ s <> EmptyString.

(** The query pairs a parameter map contributes: the properties whose value
    is a string that is not empty, in order. *)
Definition non_empty_pairs (params : Params) : list (string * string) :=
  omap (fun kv =>
          match snd kv with
          | VStr s => if String.eqb s "" then None else Some (fst kv, s)
          | _ => None
          end) params.

(** The query of a request carries a non-empty value under [key]. *)
Definition carries (key : string) (u : Url) : Prop :=
  exists value, In (key, value) (searchParams u) /\ value <> EmptyString.

(** The tools that take a begin and an end date. *)
Definition dateTools : list McpTool :=
  monitorTools ++ sampleDataTools ++ dailyTools ++ quarterlyTools ++ annualTools.

(** The three ways a failure reaches the caller of a tool: the handler
    throws and the dispatcher answers (samples, daily, quarterly, lists);
    the handler of annual.ts answers itself; the handler of monitors.ts
    answers itself with a JSON object. *)
Definition failure_reports (e : AqsError) : list ToolResult :=
  [ {| content := [ {| text := "Error: " +:+ message e |} ]; isError := Some true |};
    text_result ("Error: " +:+ message e);
    text_result (JSON.pretty (JSON.obj [("error", Some (JStr (message e)))])) ].

(** A date token whose three numbers are in the accepted ranges. *)
Definition well_formed_date (s : string) : Prop :=
  is_date_token s /\ 1 <= month_of s <= 12 /\ 1 <= day_of s <= 31 /\
  1900 <= year_of s <= 2100.

(** ** Definitions used by the proofs *)

(** What validateDateFormat does on a date token, in terms of the three
    numbers the token denotes. *)
Definition checked_fields (date fieldName : string) : Outcome unit :=
  if (month_of date <? 1) || (month_of date >? 12)
  then raise (InvalidDateValue fieldName PartMonth (Some (month_of date)))
  else if (day_of date <? 1) || (day_of date >? 31)
  then raise (InvalidDateValue fieldName PartDay (Some (day_of date)))
  else if (year_of date <? 1900) || (year_of date >? 2100)
  then raise (InvalidDateValue fieldName PartYear (Some (year_of date)))
  else Ok tt.

(** The text the dispatcher makes of a thrown value. *)
Definition thrown_text (t : Thrown) : string :=
  match t with
  | ThrowError e => message e
  | ThrowOther rendering => rendering
  end.

(** What the transport makes of the answer of the network. *)
Definition classify (answer : FetchResult) : Outcome AqsResponse :=
  match answer with
  | FetchRejected (ThrowError e) => raise (TransportError e)
  | FetchRejected (ThrowOther r) => Throw (ThrowOther r)
  | FetchResolved r =>
      if response_ok r then
        match http_json r with
        | inl (ThrowError e) => raise (TransportError e)
        | inl (ThrowOther r) => Throw (ThrowOther r)
        | inr d =>
            match header_failed d with
            | Some h => raise (TransportError (ApiStatusError h))
            | None => Ok d
            end
        end
      else raise (TransportError (HttpStatusError (http_status r) (http_statusText r)))
  end.

(** What a date-taking handler checks before it asks the transport. *)
Definition precheck (e : gmap string string) (args : gmap string JsVal) : Outcome Credentials :=
  match resolveCredentials e (arg args "email") (arg args "key") with
  | Throw t => Throw t
  | Ok c =>
      match validateDateFormat (to_String (arg args "bdate")) "bdate" with
      | Throw t => Throw t
      | Ok _ =>
          match validateDateFormat (to_String (arg args "edate")) "edate" with
          | Throw t => Throw t
          | Ok _ =>
              match validateDateRange (to_String (arg args "bdate"))
                                      (to_String (arg args "edate")) with
              | Throw t => Throw t
              | Ok _ => Ok c
              end
          end
      end
  end.

(** The parameter maps the date-taking handlers hand to the transport. *)
Definition dated_params (c : Credentials) (args : gmap string JsVal)
    (location : list string) : Params :=
  [("email", cred_email c); ("key", cred_key c); ("param", arg args "param");
   ("bdate", arg args "bdate"); ("edate", arg args "edate")] ++ pick args location.

Definition annual_params (c : Credentials) (params : gmap string JsVal)
    (location : list string) : Params :=
  obj_spread
    [("email", cred_email c); ("key", cred_key c); ("param", arg params "param");
     ("bdate", arg params "bdate"); ("edate", arg params "edate")]
    (pick params location).

(** A call leaves the world as it was, or as one request of the transport
    leaves it; that request carries the email, and the key too unless the
    tool is the registration one. *)
Definition sends (t : McpTool) (args : gmap string JsVal) (w : World) : Prop :=
  snd (handler t args w) = w \/
  exists endpoint params,
    snd (handler t args w) = snd (aqs endpoint params w) /\
    carries "email" (buildUrl endpoint params) /\
    (name t <> "aqs_signup" -> carries "key" (buildUrl endpoint params)).

(** No suspension ends early. *)
Definition punctual (w : World) : Prop := Forall (fun d => 0 <= d) (delays w).

(** Consecutive starts are at least the interval apart, once the earlier
    one is a real clock reading (the marker 0 stands for never). *)
Definition spaced (starts : list Z) : Prop :=
  forall i t1 t2,
    starts !! i = Some t1 -> starts !! S i = Some t2 -> 0 < t1 -> RATE_LIMIT_MS <= t2 - t1.

(** The invariant of the process: suspensions are punctual, the requests
    issued so far are spaced, and the marker holds the start of the latest. *)
Definition throttled (w : World) : Prop :=
  punctual w /\ spaced (request_starts w) /\
  (forall t, last (request_starts w) = Some t -> t = lastRequestTime w).

(** The clock is after the epoch, and so was every request. *)
Definition after_epoch (w : World) : Prop :=
  0 < now w /\ Forall (fun t => 0 < t) (request_starts w).

(** ** Concrete inputs *)

Definition demo_envelope : AqsResponse :=
  mkResponse (Some [mkHeader "Success" "20240101" "https://aqs.epa.gov" None])
             [JObj [("code", JStr "01"); ("value_represented", JStr "Alabama")]].

(** A process that has sent nothing yet, with no credentials in its
    environment and a server that answers every request with success. *)
Definition demo_world : World :=
  {| now := 1700000000000; delays := [40; 2; 7; 15; 1]; lastRequestTime := 0; env := ∅;
     network := fun _ _ => FetchResolved (mkHttp 200 "OK" (inr demo_envelope));
     requests := []; stderr := [] |}.

Definition demo_credentials : gmap string JsVal :=
  <["email" := VStr "a@b.com"]> (<["key" := VStr "k"]> ∅).

Definition cross_year_args : gmap string JsVal :=
  <["bdate" := VStr "20230601"]> (<["edate" := VStr "20240601"]> demo_credentials).

Definition demo_calls : list ToolCall :=
  [ mkCall 0 "aqs_list_states" demo_credentials;
    mkCall 1200 "aqs_sample_data_by_site" cross_year_args;
    mkCall 300 "aqs_signup" demo_credentials;
    mkCall 9000 "aqs_list_cbsas" demo_credentials ].

Definition failed_header : AqsHeader :=
  mkHeader "Failed" "20240101" "https://aqs.epa.gov" (Some 0).

(** A server that answers the first request with status 404, the second
    with a failure header, and every later one with success. *)
Definition moody_world : World :=
  {| now := 1700000000000; delays := []; lastRequestTime := 0; env := ∅;
     network := fun n _ =>
       match n with
       | O => FetchResolved (mkHttp 404 "Not Found" (inl (ThrowError (RuntimeError "Unexpected token"))))
       | S O => FetchResolved (mkHttp 200 "OK" (inr (mkResponse (Some [failed_header]) [])))
       | _ => FetchResolved (mkHttp 200 "OK" (inr demo_envelope))
       end;
     requests := []; stderr := [] |}.

(** ** Vocabulary of the tool-level properties *)

(** The answer of the dispatcher to a name it does not know. *)
Definition unknown_answer (n : string) : ToolResult :=
  {| content := [ {| text := "Unknown tool: " +:+ n |} ]; isError := Some true |}.

(** The answer of the dispatcher to a value a handler threw. *)
Definition flagged_answer (t : Thrown) : ToolResult :=
  {| content := [ {| text := "Error: " +:+ thrown_text t |} ]; isError := Some true |}.

Definition throwingTools : list McpTool :=
  listTools ++ sampleDataTools ++ dailyTools ++ quarterlyTools.

(** The line the gate writes before it waits. *)
Definition wait_line (waitTime : Z) : string :=
  "[AQS] Rate limiting: waiting " +:+ Str.of_Z waitTime +:+ "ms before next request".

(** A server that is down: every fetch is rejected. *)
Definition offline_world : World :=
  {| now := 1700000000000; delays := [30000]; lastRequestTime := 1699999998000;
     env := <["AQS_EMAIL" := "env@example.org"]> (<["AQS_API_KEY" := "envkey"]> ∅);
     network := fun _ _ => FetchRejected (ThrowError (RuntimeError "fetch failed"));
     requests := []; stderr := [] |}.

(** A call is rejected with [e]: it leaves the world as it was, and its
    answer reports [e] in one of the three forms. *)
Definition rejected_with (n : string) (args : gmap string JsVal) (w : World)
    (e : AqsError) : Prop :=
  snd (callTool n args w) = w /\
  exists r, fst (callTool n args w) = Ok r /\ In r (failure_reports e).

(** What a handler returns is one text item without a flag. *)
Definition plain (o : Outcome ToolResult) : Prop :=
  forall r, o = Ok r -> exists s, r = text_result s.


(** The two answers of aqs_is_available to a failure. *)
Definition credentials_required (msg : string) : ToolResult :=
  text_result
    ("Credentials required: " +:+ msg +:+ Str.newline +:+ Str.newline +:+
     "Provide email and key parameters, or set AQS_EMAIL and AQS_API_KEY environment variables.").
Definition unavailable (msg : string) : ToolResult :=
  text_result
    ("EPA AQS API Status: UNAVAILABLE or ERROR" +:+ Str.newline +:+ Str.newline +:+
     "Error: " +:+ msg).

(** Credentials and a range within 2024, and nothing else: no parameter
    code and no place. *)
Definition bare_range_args : gmap string JsVal :=
  <["bdate" := VStr "20240101"]> (<["edate" := VStr "20241231"]> demo_credentials).

(** * Properties *)

(** ** Digits and date tokens *)

Section Digits.

Lemma is_digit_bounds c :
  Str.is_digit c = true <-> (48 <= Str.code c <= 57)%nat.
Proof.
  unfold Str.is_digit. rewrite andb_true_iff, !Nat.leb_le. tauto.
Qed.

Lemma digit_value_range c :
  Str.is_digit c = true -> 0 <= Str.digit_value c <= 9.
Proof.
  intros H%is_digit_bounds. unfold Str.digit_value. lia.
Qed.

Lemma digit_not_space c : Str.is_digit c = true -> ParseInt.is_space c = false.
Proof.
  intros H%is_digit_bounds. unfold ParseInt.is_space. cbv zeta.
  apply orb_false_iff; split.
  - apply andb_false_iff. right. apply Nat.leb_gt. lia.
  - apply Nat.eqb_neq. lia.
Qed.

Lemma digits_fold acc s :
  Forall (fun c => Str.is_digit c = true) (Str.chars s) ->
  ParseInt.digits acc s
  = fold_left (fun a c => 10 * a + Str.digit_value c) (Str.chars s) acc.
Proof.
  revert acc. induction s as [|c s IH]; intros acc Hall; simpl.
  - reflexivity.
  - inversion Hall as [|? ? Hc Hs]; subst. rewrite Hc. now apply IH.
Qed.

(** On a non-empty run of digits parseInt reads the whole run. *)
Lemma parseInt10_digits s :
  s <> EmptyString ->
  Forall (fun c => Str.is_digit c = true) (Str.chars s) ->
  ParseInt.parseInt10 s = Some (decimal s).
Proof.
  intros Hne Hall. destruct s as [|c s]; [congruence|].
  inversion Hall as [|? ? Hc Hs]; subst.
  unfold ParseInt.parseInt10. simpl ParseInt.skip_space.
  rewrite (digit_not_space _ Hc).
  pose proof (proj1 (is_digit_bounds c) Hc) as Hb.
  replace (Nat.eqb (Str.code c) 45) with false by (symmetry; apply Nat.eqb_neq; lia).
  replace (Nat.eqb (Str.code c) 43) with false by (symmetry; apply Nat.eqb_neq; lia).
  unfold ParseInt.unsigned. rewrite Hc. f_equal.
  now apply digits_fold.
Qed.

Lemma match_digits_spec n s :
  match_digits n s = true
  <-> String.length s = n /\ Forall (fun c => Str.is_digit c = true) (Str.chars s).
Proof.
  revert s. induction n as [|n IH]; intros [|c s]; simpl.
  - split; [intros _; split; [reflexivity|constructor] | reflexivity].
  - split; [discriminate | intros [H _]; discriminate].
  - split; [discriminate | intros [H _]; discriminate].
  - rewrite andb_true_iff, IH. split.
    + intros [Hc [Hl Hs]]. split; [now f_equal | now constructor].
    + intros [Hl Hs]. inversion Hs; subst. injection Hl as Hl. tauto.
Qed.

Lemma match_digits_token s : match_digits 8 s = true <-> is_date_token s.
Proof. apply match_digits_spec. Qed.

(** A date token spelled out. *)
Lemma token_shape s :
  is_date_token s ->
  exists c1 c2 c3 c4 c5 c6 c7 c8,
    s = String c1 (String c2 (String c3 (String c4
          (String c5 (String c6 (String c7 (String c8 EmptyString))))))) /\
    Forall (fun c => Str.is_digit c = true) [c1; c2; c3; c4; c5; c6; c7; c8].
Proof.
  intros [Hl Hd].
  do 8 (destruct s as [|? s]; [discriminate Hl|]).
  destruct s; [|discriminate Hl].
  do 8 eexists. split; [reflexivity | exact Hd].
Qed.

Lemma token_fields date :
  is_date_token date ->
  ParseInt.parseInt10 (Str.js_substring 0 4 date) = Some (year_of date) /\
  ParseInt.parseInt10 (Str.js_substring 4 6 date) = Some (month_of date) /\
  ParseInt.parseInt10 (Str.js_substring 6 8 date) = Some (day_of date).
Proof.
  intros (c1 & c2 & c3 & c4 & c5 & c6 & c7 & c8 & -> & Hd)%token_shape.
  unfold year_of, month_of, day_of, Str.js_substring. simpl String.substring.
  repeat match goal with
         | H : Forall _ (_ :: _) |- _ => inversion H; clear H; subst
         end.
  repeat split; apply parseInt10_digits; try discriminate;
    repeat constructor; assumption.
Qed.

End Digits.

Lemma validateDateFormat_token date fieldName :
  is_date_token date -> validateDateFormat date fieldName = checked_fields date fieldName.
Proof.
  intros Htok. unfold validateDateFormat, checked_fields.
  rewrite (proj2 (match_digits_token date) Htok). simpl negb. cbv iota.
  destruct (token_fields date Htok) as (-> & -> & ->). reflexivity.
Qed.

Lemma validateDateFormat_not_token date fieldName :
  ~ is_date_token date ->
  validateDateFormat date fieldName = raise (InvalidDateFormat fieldName date).
Proof.
  intros Hn. unfold validateDateFormat.
  destruct (match_digits 8 date) eqn:E; [|reflexivity].
  exfalso. apply Hn. now apply match_digits_token.
Qed.

Ltac split_cmp :=
  repeat match goal with
         | |- context [?a <? ?b] => destruct (Z.ltb_spec a b)
         | |- context [?a >? ?b] => rewrite (Z.gtb_ltb a b)
         | H : context [?a <? ?b] |- _ => destruct (Z.ltb_spec a b)
         | H : context [?a >? ?b] |- _ => rewrite (Z.gtb_ltb a b) in H
         end.

Lemma validateDateFormat_in_range date fieldName :
  is_date_token date -> 1 <= month_of date <= 12 -> 1 <= day_of date <= 31 ->
  1900 <= year_of date <= 2100 -> validateDateFormat date fieldName = Ok tt.
Proof.
  intros Htok Hm Hd Hy. rewrite (validateDateFormat_token _ _ Htok).
  unfold checked_fields. split_cmp; simpl; try reflexivity; lia.
Qed.

(** C4. Date-format validation fails with InvalidDateFormat exactly when
    the string is not eight ASCII digits. On a string of eight digits it
    fails with InvalidDateValue exactly when the month is outside 1..12, the
    day outside 1..31 or the year outside 1900..2100, and succeeds
    otherwise; day 31 passes in every month, as in 20240231. *)
Theorem validateDateFormat_spec (date fieldName : string) :
  (validateDateFormat date fieldName = raise (InvalidDateFormat fieldName date)
     <-> ~ is_date_token date) /\
  (is_date_token date ->
     ((exists part value,
          validateDateFormat date fieldName = raise (InvalidDateValue fieldName part value))
        <-> (month_of date < 1 \/ 12 < month_of date \/
             day_of date < 1 \/ 31 < day_of date \/
             year_of date < 1900 \/ 2100 < year_of date)) /\
     (1 <= month_of date <= 12 -> 1 <= day_of date <= 31 ->
      1900 <= year_of date <= 2100 -> validateDateFormat date fieldName = Ok tt)) /\
  (is_date_token date -> day_of date = 31 -> 1 <= month_of date <= 12 ->
   1900 <= year_of date <= 2100 -> validateDateFormat date fieldName = Ok tt) /\
  validateDateFormat "20240231" fieldName = Ok tt.
Proof.
  split; [|split; [|split]].
  - split.
    + intros Heq Htok. rewrite (validateDateFormat_token _ _ Htok) in Heq.
      unfold checked_fields in Heq.
      repeat match type of Heq with
             | context [if ?b then _ else _] => destruct b
             end; discriminate Heq.
    + apply validateDateFormat_not_token.
  - intros Htok. split; [|now apply validateDateFormat_in_range].
    rewrite (validateDateFormat_token _ _ Htok). unfold checked_fields. split.
    + intros (part & value & Heq). revert Heq.
      split_cmp; simpl; intros Heq; try lia; discriminate Heq.
    + intros Hout. split_cmp; simpl; eauto; lia.
  - intros Htok Hd Hm Hy. apply validateDateFormat_in_range; auto. lia.
  - reflexivity.
Qed.

Section Years.

Lemma code_inj c d : Str.code c = Str.code d -> c = d.
Proof.
  unfold Str.code. intros H.
  rewrite <- (ascii_nat_embedding c), <- (ascii_nat_embedding d). now f_equal.
Qed.

Lemma digit_value_inj c d :
  Str.digit_value c = Str.digit_value d -> c = d.
Proof. unfold Str.digit_value. intros H. apply code_inj. lia. Qed.

(** Two date tokens have the same leading four characters exactly when
    they denote the same year. *)
Lemma same_year_prefix b e :
  is_date_token b -> is_date_token e ->
  (Str.js_substring 0 4 b = Str.js_substring 0 4 e <-> year_of b = year_of e).
Proof.
  intros (b1 & b2 & b3 & b4 & b5 & b6 & b7 & b8 & -> & Hb)%token_shape
         (e1 & e2 & e3 & e4 & e5 & e6 & e7 & e8 & -> & He)%token_shape.
  unfold year_of, decimal, Str.js_substring. simpl.
  repeat match goal with
         | H : Forall _ (_ :: _) |- _ => inversion H; clear H; subst
         end.
  repeat match goal with
         | H : Str.is_digit _ = true |- _ => apply digit_value_range in H
         end.
  split.
  - intros [= -> -> -> ->]. reflexivity.
  - intros Heq.
    assert (Str.digit_value b1 = Str.digit_value e1) as ->%digit_value_inj by lia.
    assert (Str.digit_value b2 = Str.digit_value e2) as ->%digit_value_inj by lia.
    assert (Str.digit_value b3 = Str.digit_value e3) as ->%digit_value_inj by lia.
    assert (Str.digit_value b4 = Str.digit_value e4) as ->%digit_value_inj by lia.
    reflexivity.
Qed.

End Years.

Lemma validateDateRange_cases bdate edate :
  (Str.js_substring 0 4 bdate = Str.js_substring 0 4 edate /\
   validateDateRange bdate edate = Ok tt) \/
  (Str.js_substring 0 4 bdate <> Str.js_substring 0 4 edate /\
   validateDateRange bdate edate = raise (CrossYearRange bdate edate)).
Proof.
  unfold validateDateRange.
  destruct (String.eqb_spec (Str.js_substring 0 4 bdate) (Str.js_substring 0 4 edate));
    simpl; [left | right]; split; auto.
Qed.

(** C5. Range validation fails with CrossYearRange exactly when the
    leading four characters of the two tokens differ, and succeeds
    otherwise; for date tokens that is exactly when the years differ.
    Nothing else is compared: a begin date after the end date in the same
    year passes (20241231 to 20240101). *)
Theorem validateDateRange_spec (bdate edate : string) :
  (validateDateRange bdate edate = raise (CrossYearRange bdate edate)
     <-> Str.js_substring 0 4 bdate <> Str.js_substring 0 4 edate) /\
  (validateDateRange bdate edate = Ok tt
     <-> Str.js_substring 0 4 bdate = Str.js_substring 0 4 edate) /\
  (is_date_token bdate -> is_date_token edate ->
     (validateDateRange bdate edate = raise (CrossYearRange bdate edate)
        <-> year_of bdate <> year_of edate) /\
     (year_of bdate = year_of edate -> validateDateRange bdate edate = Ok tt)) /\
  validateDateRange "20241231" "20240101" = Ok tt /\
  validateDateRange "20231231" "20240101" = raise (CrossYearRange "20231231" "20240101").
Proof.
  assert (H1 : validateDateRange bdate edate = raise (CrossYearRange bdate edate)
               <-> Str.js_substring 0 4 bdate <> Str.js_substring 0 4 edate).
  { destruct (validateDateRange_cases bdate edate) as [[He ->] | [Hn ->]].
    - split; [discriminate | contradiction].
    - tauto. }
  assert (H2 : validateDateRange bdate edate = Ok tt
               <-> Str.js_substring 0 4 bdate = Str.js_substring 0 4 edate).
  { destruct (validateDateRange_cases bdate edate) as [[He ->] | [Hn ->]].
    - tauto.
    - split; [discriminate | contradiction]. }
  repeat split; try (apply H1 || apply H2); try reflexivity.
  - intros Heq. rewrite <- (same_year_prefix _ _ H H0). now apply H1.
  - intros Hne. apply H1. now rewrite (same_year_prefix _ _ H H0).
  - intros Heq. apply H2. now apply same_year_prefix.
Qed.

(** ** Credentials *)

Lemma truthy_yields v : truthy v = true <-> yields v.
Proof.
  unfold yields. destruct v as [| |s]; simpl.
  - split; [discriminate | intros (s & [=] & _)].
  - split; [discriminate | intros (s & [=] & _)].
  - rewrite negb_true_iff. split.
    + intros H. exists s. split; [reflexivity|]. intros ->. discriminate.
    + intros (s' & [= <-] & Hne). now apply String.eqb_neq.
Qed.

Lemma truthy_false_yields v : truthy v = false <-> ~ yields v.
Proof. rewrite <- truthy_yields. destruct (truthy v); split; congruence. Qed.

Lemma js_or_truthy a b : truthy (js_or a b) = truthy a || truthy b.
Proof. unfold js_or. destruct (truthy a) eqn:E; simpl; auto. Qed.

Lemma resolveCredentials_bool e pe pk :
  resolveCredentials e pe pk =
  if truthy pe || truthy (env_get e "AQS_EMAIL") then
    if truthy pk || truthy (env_get e "AQS_API_KEY") then
      Ok {| cred_email := js_or pe (env_get e "AQS_EMAIL");
            cred_key := js_or pk (env_get e "AQS_API_KEY") |}
    else raise (MissingCredential FieldKey)
  else raise (MissingCredential FieldEmail).
Proof.
  unfold resolveCredentials, getDefaultCredentials. simpl.
  rewrite !js_or_truthy.
  destruct (truthy pe || truthy (env_get e "AQS_EMAIL")); simpl; [|reflexivity].
  destruct (truthy pk || truthy (env_get e "AQS_API_KEY")); reflexivity.
Qed.

Ltac by_truthiness v :=
  let E := fresh "E" in
  destruct (truthy v) eqn:E;
  [ assert (yields v) by (apply truthy_yields; exact E)
  | assert (~ yields v) by (apply truthy_false_yields; exact E) ].

(** C6. Credential resolution returns, for each field, the value the
    caller supplied when that is a non-empty string, and otherwise the
    value of the environment variable read at the call. It succeeds exactly
    when each field has a source that yields a value; it fails naming the
    email exactly when no source yields an email (whatever the key, so
    also when nothing is supplied at all), and naming the key exactly when
    an email is found and no source yields a key. Every failure is a
    MissingCredential. *)
Theorem resolveCredentials_spec (e : gmap string string) (providedEmail providedKey : JsVal) :
  let envEmail := env_get e "AQS_EMAIL" in
  let envKey := env_get e "AQS_API_KEY" in
  (forall c, resolveCredentials e providedEmail providedKey = Ok c ->
     (yields providedEmail -> cred_email c = providedEmail) /\
     (~ yields providedEmail -> cred_email c = envEmail) /\
     (yields providedKey -> cred_key c = providedKey) /\
     (~ yields providedKey -> cred_key c = envKey)) /\
  ((exists c, resolveCredentials e providedEmail providedKey = Ok c)
     <-> (yields providedEmail \/ yields envEmail) /\ (yields providedKey \/ yields envKey)) /\
  (resolveCredentials e providedEmail providedKey = raise (MissingCredential FieldEmail)
     <-> ~ yields providedEmail /\ ~ yields envEmail) /\
  (resolveCredentials e providedEmail providedKey = raise (MissingCredential FieldKey)
     <-> (yields providedEmail \/ yields envEmail) /\ ~ yields providedKey /\ ~ yields envKey) /\
  (~ yields providedEmail -> ~ yields envEmail ->
   ~ yields providedKey -> ~ yields envKey ->
   resolveCredentials e providedEmail providedKey = raise (MissingCredential FieldEmail)) /\
  (forall t, resolveCredentials e providedEmail providedKey = Throw t ->
     exists f, t = ThrowError (MissingCredential f)) /\
  (forall w, resolveCredentialsM providedEmail providedKey w
             = (resolveCredentials (env w) providedEmail providedKey, w)).
Proof.
  intros envEmail envKey.
  rewrite resolveCredentials_bool. fold envEmail envKey. unfold js_or, raise.
  by_truthiness providedEmail; by_truthiness envEmail;
    by_truthiness providedKey; by_truthiness envKey; simpl;
    (split; [intros c [= <-]; simpl; tauto || (intros; discriminate) |]);
    (split; [split; [intros [c Hc]; try discriminate Hc; tauto | intros Hy; eauto; tauto] |]);
    (split; [split; [intros Hc; try discriminate Hc; tauto | intros Hy; try reflexivity; tauto] |]);
    (split; [split; [intros Hc; try discriminate Hc; tauto | intros Hy; try reflexivity; tauto] |]);
    (split; [intros; try reflexivity; tauto |]);
    (split; [intros t Ht; try discriminate Ht; injection Ht as <-; eauto | reflexivity]).
Qed.

(** C10. An empty string supplied for a credential counts as absent:
    resolution gives what it gives with the field left out, so the
    environment value is used, the call fails with MissingCredential of
    that field when the environment value is missing or empty, and an
    empty string is never part of a resolved pair. *)
Theorem empty_credential_is_absent (e : gmap string string) (other : JsVal) :
  resolveCredentials e (VStr "") other = resolveCredentials e VUndefined other /\
  resolveCredentials e other (VStr "") = resolveCredentials e other VUndefined /\
  (forall c, resolveCredentials e (VStr "") other = Ok c ->
     cred_email c = env_get e "AQS_EMAIL") /\
  (forall c, resolveCredentials e other (VStr "") = Ok c ->
     cred_key c = env_get e "AQS_API_KEY") /\
  (~ yields (env_get e "AQS_EMAIL") ->
   resolveCredentials e (VStr "") other = raise (MissingCredential FieldEmail)) /\
  (~ yields (env_get e "AQS_API_KEY") ->
   (yields other \/ yields (env_get e "AQS_EMAIL")) ->
   resolveCredentials e other (VStr "") = raise (MissingCredential FieldKey)) /\
  (forall pe pk c, resolveCredentials e pe pk = Ok c ->
     cred_email c <> VStr "" /\ cred_key c <> VStr "").
Proof.
  split; [reflexivity|]. split; [reflexivity|].
  rewrite !resolveCredentials_bool. unfold js_or. simpl.
  repeat split.
  - intros c. by_truthiness (env_get e "AQS_EMAIL"); simpl;
      [destruct (truthy other || truthy (env_get e "AQS_API_KEY"))|];
      intros [= <-]; reflexivity.
  - intros c.
    destruct (truthy other || truthy (env_get e "AQS_EMAIL")); [|discriminate].
    destruct (truthy (env_get e "AQS_API_KEY")); [|discriminate].
    intros [= <-]. reflexivity.
  - intros Hn%truthy_false_yields. rewrite Hn. reflexivity.
  - intros Hn%truthy_false_yields Hy. rewrite Hn.
    assert (truthy other || truthy (env_get e "AQS_EMAIL") = true) as ->.
    { apply orb_true_iff. rewrite !truthy_yields. exact Hy. }
    reflexivity.
  - rewrite resolveCredentials_bool in H.
    destruct (truthy pe || truthy (env_get e "AQS_EMAIL")) eqn:E1; [|discriminate].
    destruct (truthy pk || truthy (env_get e "AQS_API_KEY")); [|discriminate].
    injection H as <-. simpl. rewrite <- js_or_truthy in E1.
    intros Heq. rewrite Heq in E1. discriminate.
  - rewrite resolveCredentials_bool in H.
    destruct (truthy pe || truthy (env_get e "AQS_EMAIL")); [|discriminate].
    destruct (truthy pk || truthy (env_get e "AQS_API_KEY")) eqn:E2; [|discriminate].
    injection H as <-. simpl. rewrite <- js_or_truthy in E2.
    intros Heq. rewrite Heq in E2. discriminate.
Qed.

(** ** The constructed URL *)

Lemma buildUrl_fold params u :
  fold_left
    (fun url kv =>
       match snd kv with
       | VUndefined => url
       | VNull => url
       | VStr value =>
           if negb (String.eqb value "") then URL.append url (fst kv) value else url
       end) params u
  = {| href := href u; searchParams := searchParams u ++ non_empty_pairs params |}.
Proof.
  revert u. induction params as [|[k v] params IH]; intros u; simpl.
  - unfold non_empty_pairs. simpl. rewrite app_nil_r. now destruct u.
  - rewrite IH. unfold non_empty_pairs. simpl.
    destruct v as [| |s]; simpl; try reflexivity.
    destruct (String.eqb s ""); simpl; [reflexivity|].
    now rewrite <- app_assoc.
Qed.

Lemma buildUrl_eq endpoint params :
  buildUrl endpoint params
  = {| href := AQS_BASE_URL +:+ "/" +:+ endpoint;
       searchParams := non_empty_pairs params |}.
Proof. unfold buildUrl. rewrite buildUrl_fold. reflexivity. Qed.

Lemma in_non_empty_pairs params k v :
  In (k, v) (non_empty_pairs params) <-> In (k, VStr v) params /\ v <> EmptyString.
Proof.
  unfold non_empty_pairs. induction params as [|[k' v'] params IH]; simpl.
  - tauto.
  - destruct v' as [| |s]; simpl.
    + rewrite IH. split; [tauto | intros [[[=]|?] ?]; tauto].
    + rewrite IH. split; [tauto | intros [[[=]|?] ?]; tauto].
    + destruct (String.eqb_spec s ""); simpl.
      * rewrite IH. split; [tauto|]. intros [[[= -> ->]|?] ?]; [contradiction | tauto].
      * rewrite IH. split.
        -- intros [[= -> ->]|?]; [split; auto | tauto].
        -- intros [[[= -> ->]|?] ?]; [left; reflexivity | tauto].
Qed.

Lemma non_empty_pairs_keys params k :
  In k (List.map fst (non_empty_pairs params)) ->
  exists s, In (k, VStr s) params /\ s <> EmptyString.
Proof.
  intros ([k' v] & <- & Hin)%in_map_iff. simpl.
  exists v. now apply in_non_empty_pairs.
Qed.

(** C7. The constructed URL is the fixed base, a slash and the endpoint
    path; its query pairs are the parameters whose value is a non-empty
    string, in the order of the map; a parameter whose value is undefined,
    null or the empty string has no pair in the query. *)
Theorem buildUrl_spec (endpoint : string) (params : Params) :
  href (buildUrl endpoint params) = AQS_BASE_URL +:+ "/" +:+ endpoint /\
  searchParams (buildUrl endpoint params) = non_empty_pairs params /\
  (forall k v, In (k, v) (searchParams (buildUrl endpoint params))
               <-> In (k, VStr v) params /\ v <> EmptyString) /\
  (forall k v, NoDup (List.map fst params) -> In (k, v) params ->
     v = VUndefined \/ v = VNull \/ v = VStr "" ->
     ~ In k (List.map fst (searchParams (buildUrl endpoint params)))).
Proof.
  rewrite buildUrl_eq. simpl.
  split; [reflexivity|]. split; [reflexivity|]. split.
  - intros k v. apply in_non_empty_pairs.
  - intros k v Hnd Hin Hempty (s & Hs & Hne)%non_empty_pairs_keys.
    assert (v = VStr s) as ->.
    { clear -Hnd Hin Hs. induction params as [|[k' v'] params IH]; simpl in *; [tauto|].
      inversion Hnd as [|? ? Hnotin Hnd']; subst.
      destruct Hin as [Hin|Hin]; destruct Hs as [Hs|Hs].
      - congruence.
      - exfalso. apply Hnotin. injection Hin as -> ->.
        apply list_elem_of_In, in_map_iff. exists (k, VStr s). auto.
      - exfalso. apply Hnotin. injection Hs as -> ->.
        apply list_elem_of_In, in_map_iff. exists (k, v). auto.
      - auto. }
    destruct Hempty as [[=]|[[=]|[= ->]]]. now apply Hne.
Qed.

(** ** The throttle gate *)

Lemma hd_nonneg l : Forall (fun d => 0 <= d) l -> 0 <= hd 0 l.
Proof. destruct 1; simpl; lia. Qed.

Lemma tl_nonneg l : Forall (fun d => 0 <= d) l -> Forall (fun d => 0 <= d) (tl l).
Proof. destruct 1; simpl; auto. Qed.

Ltac run_monad :=
  unfold bind, ret, throw, lift, try_catch, Date_now, get_lastRequestTime,
    set_lastRequestTime, console_error, sleep, suspend, get_env; simpl.

(** The gate never throws, and what it leaves behind: the marker holds the
    clock reading at its end; the wait, when there is one, is what was left
    of the interval. *)
Lemma enforceRateLimit_effects w :
  let g := snd (enforceRateLimit w) in
  fst (enforceRateLimit w) = Ok tt /\
  lastRequestTime g = now g /\
  env g = env w /\ network g = network w /\ requests g = requests w /\
  (lastRequestTime w <= 0 \/ RATE_LIMIT_MS <= now w - lastRequestTime w ->
   now g = now w /\ delays g = delays w /\ stderr g = stderr w) /\
  (0 < lastRequestTime w -> now w - lastRequestTime w < RATE_LIMIT_MS ->
   now g = now w + (RATE_LIMIT_MS - (now w - lastRequestTime w)) + hd 0 (delays w) /\
   delays g = tl (delays w)).
Proof.
  unfold enforceRateLimit, RATE_LIMIT_MS. run_monad.
  destruct (Z.ltb_spec (now w - lastRequestTime w) 5000);
    destruct (Z.ltb_spec 0 (lastRequestTime w));
    rewrite ?Z.gtb_ltb; simpl;
    repeat match goal with
           | |- context [?a <? ?b] => destruct (Z.ltb_spec a b); try lia
           end; simpl; repeat split; try reflexivity; try lia.
Qed.

Lemma enforceRateLimit_spacing w :
  punctual w ->
  let g := snd (enforceRateLimit w) in
  punctual g /\ now w <= now g /\
  (0 < lastRequestTime w -> lastRequestTime w + RATE_LIMIT_MS <= lastRequestTime g).
Proof.
  intros Hp g.
  destruct (enforceRateLimit_effects w) as (_ & Hm & _ & _ & _ & Hfree & Hwait).
  fold g in Hm, Hfree, Hwait. rewrite Hm.
  pose proof (hd_nonneg _ Hp) as Hhd. unfold punctual in *.
  destruct (Z.le_gt_cases (lastRequestTime w) 0) as [Hz|Hpos].
  - destruct Hfree as (Hn & Hd & _); [auto|]. rewrite Hn, Hd.
    repeat split; auto; lia.
  - destruct (Z.lt_ge_cases (now w - lastRequestTime w) RATE_LIMIT_MS) as [Hlt|Hge].
    + destruct (Hwait Hpos Hlt) as (Hn & Hd). rewrite Hn, Hd.
      repeat split; [now apply tl_nonneg | lia | lia].
    + destruct Hfree as (Hn & Hd & _); [auto|]. rewrite Hn, Hd.
      repeat split; auto; lia.
Qed.

Lemma bind_gate {B} (k : unit -> M B) w :
  bind enforceRateLimit k w = k tt (snd (enforceRateLimit w)).
Proof.
  destruct (enforceRateLimit_effects w) as (Hok & _).
  unfold bind. destruct (enforceRateLimit w) as [o g]. simpl in *. now subst o.
Qed.

(** ** The transport *)

Lemma aqs_outcome endpoint params w :
  fst (aqs endpoint params w)
  = classify (network w (List.length (requests w)) (buildUrl endpoint params)).
Proof.
  destruct (enforceRateLimit_effects w) as (_ & _ & _ & Hnet & Hreq & _).
  unfold aqs. rewrite bind_gate. set (g := snd (enforceRateLimit w)) in *.
  unfold fetch, response_json. run_monad. rewrite Hnet, Hreq. unfold classify, raise.
  destruct (network w _ _) as [[e|r]|r]; simpl; try reflexivity.
  destruct (response_ok r); simpl; [|reflexivity].
  destruct (http_json r) as [[e|x]|d]; simpl; try reflexivity.
  destruct (header_failed d); reflexivity.
Qed.

Lemma aqs_effects endpoint params w :
  let g := snd (enforceRateLimit w) in
  let w' := snd (aqs endpoint params w) in
  requests w' = requests w ++ [(lastRequestTime g, buildUrl endpoint params)] /\
  lastRequestTime w' = lastRequestTime g /\
  env w' = env w /\ network w' = network w /\
  (punctual w -> punctual w' /\ now g <= now w').
Proof.
  destruct (enforceRateLimit_effects w) as (_ & Hm & Henv & Hnet & Hreq & _).
  pose proof (enforceRateLimit_spacing w) as Hsp.
  unfold aqs. rewrite bind_gate. set (g := snd (enforceRateLimit w)) in *.
  unfold fetch, response_json. run_monad. rewrite Hm, Hreq, Henv, Hnet.
  assert (Hp : punctual w ->
               Forall (fun d => 0 <= d) (delays g) /\ 0 <= hd 0 (delays g) /\
               Forall (fun d => 0 <= d) (tl (delays g)) /\ 0 <= hd 0 (tl (delays g)) /\
               Forall (fun d => 0 <= d) (tl (tl (delays g)))).
  { intros Hw. destruct (Hsp Hw) as (Hg & _). unfold punctual in Hg.
    repeat split; auto using hd_nonneg, tl_nonneg. }
  unfold punctual.
  destruct (network w _ _) as [[e|r]|r]; simpl;
    [ | | destruct (response_ok r); simpl;
          [destruct (http_json r) as [[e|x]|d]; simpl;
           [ | | destruct (header_failed d); simpl] | ] ];
    (do 4 (split; [reflexivity|]); intros Hw;
     destruct (Hp Hw) as (? & ? & ? & ? & ?); split; auto; try lia).
Qed.

(** ** Handlers *)

Lemma dated_request_eq endpoint location args w :
  dated_request endpoint location args w
  = match precheck (env w) args with
    | Throw t => (Throw t, w)
    | Ok c => aqs endpoint (dated_params c args location) w
    end.
Proof.
  unfold dated_request, resolveCredentialsM, precheck. run_monad.
  destruct (resolveCredentials _ _ _) as [c|t]; [|reflexivity].
  destruct (validateDateFormat _ "bdate") as [[]|t]; [|reflexivity].
  destruct (validateDateFormat _ "edate") as [[]|t]; [|reflexivity].
  destruct (validateDateRange _ _) as [[]|t]; reflexivity.
Qed.

(** Each family of date-taking handlers, by the outcome of the checks: a
    failed check is reported with the world untouched; after a passed check
    the world is the one the transport leaves. *)
Lemma sample_handler_cases endpoint location args w :
  match precheck (env w) args with
  | Throw t => sample_handler endpoint location args w = (Throw t, w)
  | Ok c => snd (sample_handler endpoint location args w)
            = snd (aqs endpoint (dated_params c args location) w)
  end.
Proof.
  unfold sample_handler, bind. rewrite dated_request_eq.
  destruct (precheck _ _) as [c|t]; [|reflexivity].
  destruct (aqs _ _ _) as [[d|t] w']; reflexivity.
Qed.

Lemma daily_handler_cases endpoint location args w :
  match precheck (env w) args with
  | Throw t => daily_handler endpoint location args w = (Throw t, w)
  | Ok c => snd (daily_handler endpoint location args w)
            = snd (aqs endpoint (dated_params c args location) w)
  end.
Proof.
  unfold daily_handler, bind. rewrite dated_request_eq.
  destruct (precheck _ _) as [c|t]; [|reflexivity].
  destruct (aqs _ _ _) as [[d|t] w']; reflexivity.
Qed.

Lemma quarterly_handler_cases endpoint location args w :
  match precheck (env w) args with
  | Throw t => quarterly_handler endpoint location args w = (Throw t, w)
  | Ok c => snd (quarterly_handler endpoint location args w)
            = snd (aqs endpoint (dated_params c args location) w)
  end.
Proof.
  unfold quarterly_handler, bind. rewrite dated_request_eq.
  destruct (precheck _ _) as [c|t]; [|reflexivity].
  destruct (aqs _ _ _) as [[d|t] w']; reflexivity.
Qed.

Lemma monitor_handler_cases endpoint location args w :
  match precheck (env w) args with
  | Throw t =>
      monitor_handler endpoint location args w
      = (Ok (text_result
               (JSON.pretty
                  (JSON.obj [("error", Some (JStr (message_or "Unknown error occurred" t)))]))),
         w)
  | Ok c => snd (monitor_handler endpoint location args w)
            = snd (aqs endpoint (dated_params c args location) w) /\
            exists r, fst (monitor_handler endpoint location args w) = Ok r
  end.
Proof.
  unfold monitor_handler, try_catch, bind. rewrite dated_request_eq.
  destruct (precheck _ _) as [c|t]; [|reflexivity].
  destruct (aqs _ _ _) as [[d|t] w']; simpl; eauto.
Qed.

Lemma handleAnnualRequest_cases endpoint params location w :
  match precheck (env w) params with
  | Throw t =>
      handleAnnualRequest endpoint params (pick params location) w
      = (Ok (text_result ("Error: " +:+ message_or "Unknown error occurred" t)), w)
  | Ok c => snd (handleAnnualRequest endpoint params (pick params location) w)
            = snd (aqs endpoint (annual_params c params location) w) /\
            exists r, fst (handleAnnualRequest endpoint params (pick params location) w) = Ok r
  end.
Proof.
  unfold handleAnnualRequest, resolveCredentialsM, precheck, annual_params. run_monad.
  destruct (resolveCredentials _ _ _) as [c|t]; [|reflexivity].
  destruct (validateDateFormat _ "bdate") as [[]|t]; [|reflexivity].
  destruct (validateDateFormat _ "edate") as [[]|t]; [|reflexivity].
  destruct (validateDateRange _ _) as [[]|t]; [|reflexivity].
  destruct (aqs _ _ _) as [[d|t] w']; simpl; eauto.
Qed.

Lemma list_handler_cases endpoint forwarded args w :
  match resolveCredentials (env w) (arg args "email") (arg args "key") with
  | Throw t => list_handler endpoint forwarded args w = (Throw t, w)
  | Ok c =>
      snd (list_handler endpoint forwarded args w)
      = snd (aqs endpoint
               ([("email", cred_email c); ("key", cred_key c)] ++ pick args forwarded) w)
  end.
Proof.
  unfold list_handler, resolveCredentialsM. run_monad.
  destruct (resolveCredentials _ _ _) as [c|t]; [|reflexivity].
  destruct (aqs _ _ _) as [[d|t] w']; reflexivity.
Qed.

Lemma isAvailable_cases args w :
  (exists r, fst (handler isAvailableTool args w) = Ok r) /\
  match resolveCredentials (env w) (arg args "email") (arg args "key") with
  | Throw t => snd (handler isAvailableTool args w) = w
  | Ok c =>
      snd (handler isAvailableTool args w)
      = snd (aqs "metaData/isAvailable" [("email", cred_email c); ("key", cred_key c)] w)
  end.
Proof.
  unfold isAvailableTool, handler, resolveCredentialsM. run_monad.
  destruct (resolveCredentials _ _ _) as [c|t].
  - destruct (aqs _ _ _) as [[d|t] w']; simpl.
    + destruct (status_is_success _); simpl; split; eauto.
    + destruct (Str.includes "Email is required" _ || _); simpl; split; eauto.
  - destruct (Str.includes "Email is required" _ || _); simpl; split; eauto.
Qed.

Lemma signup_cases args w :
  (exists r, fst (handler signupTool args w) = Ok r) /\
  (snd (handler signupTool args w) = w \/
   exists s, arg args "email" = VStr s /\ s <> EmptyString /\
             snd (handler signupTool args w) = snd (aqs "signup" [("email", VStr s)] w)).
Proof.
  unfold signupTool, handler. run_monad.
  destruct (arg args "email") as [| |s]; simpl; eauto.
  destruct (String.eqb_spec s ""); simpl; eauto.
  destruct (negb (Str.includes "@" s) || negb (Str.includes "." s)); simpl; eauto.
  destruct (aqs _ _ _) as [[d|t] w'] eqn:Eaqs; simpl.
  - destruct (status_is_success _); simpl; (split; [eauto|]);
      right; exists s; repeat split; auto; now rewrite Eaqs.
  - split; [eauto|]. right. exists s. repeat split; auto. now rewrite Eaqs.
Qed.

(** ** What a tool call sends *)

Lemma carries_intro k v endpoint params :
  truthy v = true -> In (k, v) params -> carries k (buildUrl endpoint params).
Proof.
  intros (s & -> & Hne)%truthy_yields Hin. exists s. split; [|exact Hne].
  rewrite buildUrl_eq. simpl. now apply in_non_empty_pairs.
Qed.

Lemma resolved_truthy e a b c :
  resolveCredentials e a b = Ok c ->
  truthy (cred_email c) = true /\ truthy (cred_key c) = true.
Proof.
  rewrite resolveCredentials_bool. rewrite <- !js_or_truthy.
  destruct (truthy (js_or a _)) eqn:E1; [|discriminate].
  destruct (truthy (js_or b _)) eqn:E2; [|discriminate].
  intros [= <-]. auto.
Qed.

Lemma precheck_resolved e args c :
  precheck e args = Ok c ->
  resolveCredentials e (arg args "email") (arg args "key") = Ok c.
Proof.
  unfold precheck. destruct (resolveCredentials _ _ _) as [c'|t]; [|discriminate].
  destruct (validateDateFormat _ "bdate") as [[]|t]; [|discriminate].
  destruct (validateDateFormat _ "edate") as [[]|t]; [|discriminate].
  destruct (validateDateRange _ _) as [[]|t]; [|discriminate]. congruence.
Qed.

Ltac with_credentials c H :=
  destruct (resolved_truthy _ _ _ c H) as [? ?];
  right; do 2 eexists; split; [eassumption|];
  split; [|intros _]; (eapply carries_intro; [|simpl; eauto 10]; assumption).

Lemma sample_sends n endpoint location args w :
  sends {| name := n; handler := sample_handler endpoint location |} args w.
Proof.
  unfold sends. simpl. pose proof (sample_handler_cases endpoint location args w) as Hc.
  destruct (precheck _ _) as [c|t] eqn:E; [|left; now rewrite Hc].
  apply precheck_resolved in E. unfold dated_params in Hc. with_credentials c E.
Qed.

Lemma daily_sends n endpoint location args w :
  sends {| name := n; handler := daily_handler endpoint location |} args w.
Proof.
  unfold sends. simpl. pose proof (daily_handler_cases endpoint location args w) as Hc.
  destruct (precheck _ _) as [c|t] eqn:E; [|left; now rewrite Hc].
  apply precheck_resolved in E. unfold dated_params in Hc. with_credentials c E.
Qed.

Lemma quarterly_sends n endpoint location args w :
  sends {| name := n; handler := quarterly_handler endpoint location |} args w.
Proof.
  unfold sends. simpl. pose proof (quarterly_handler_cases endpoint location args w) as Hc.
  destruct (precheck _ _) as [c|t] eqn:E; [|left; now rewrite Hc].
  apply precheck_resolved in E. unfold dated_params in Hc. with_credentials c E.
Qed.

Lemma monitor_sends n endpoint location args w :
  sends {| name := n; handler := monitor_handler endpoint location |} args w.
Proof.
  unfold sends. simpl. pose proof (monitor_handler_cases endpoint location args w) as Hc.
  destruct (precheck _ _) as [c|t] eqn:E; [|left; now rewrite Hc].
  destruct Hc as [Hc _].
  apply precheck_resolved in E. unfold dated_params in Hc. with_credentials c E.
Qed.

Lemma list_sends n endpoint forwarded args w :
  sends {| name := n; handler := list_handler endpoint forwarded |} args w.
Proof.
  unfold sends. simpl. pose proof (list_handler_cases endpoint forwarded args w) as Hc.
  destruct (resolveCredentials _ _ _) as [c|t] eqn:E; [|left; now rewrite Hc].
  with_credentials c E.
Qed.

Lemma isAvailable_sends args w : sends isAvailableTool args w.
Proof.
  unfold sends. destruct (isAvailable_cases args w) as [_ Hc].
  destruct (resolveCredentials _ _ _) as [c|t] eqn:E; [|left; exact Hc].
  with_credentials c E.
Qed.

Lemma signup_sends args w : sends signupTool args w.
Proof.
  unfold sends. destruct (signup_cases args w) as [_ [Hc | (s & Hs & Hne & Hc)]];
    [left; exact Hc|].
  right. do 2 eexists. split; [exact Hc|]. split.
  - eapply carries_intro with (v := VStr s); simpl; auto.
    destruct (String.eqb_spec s ""); [contradiction | reflexivity].
  - intros Hn. now contradiction Hn.
Qed.

Lemma obj_set_keeps (o : Params) k v x y :
  k <> x -> In (k, v) o -> In (k, v) (obj_set o x y).
Proof.
  intros Hx. induction o as [|[k' v'] o IH]; simpl; [tauto|].
  destruct (String.eqb_spec k' x) as [->|Hne]; simpl.
  - intros [Hin|Hin]; [congruence | now right].
  - intros [Hin|Hin]; [now left | right; now apply IH].
Qed.

(** Spreading the location properties over the five leading ones keeps
    every leading property the location does not name. *)
Lemma obj_spread_keeps args location (base : Params) k v :
  ~ In k location -> In (k, v) base -> In (k, v) (obj_spread base (pick args location)).
Proof.
  unfold obj_spread, pick. revert base.
  induction location as [|x location IH]; intros base Hnot Hin; simpl; [exact Hin|].
  apply IH; [intros H; apply Hnot; now right|].
  apply obj_set_keeps; [|exact Hin]. intros ->. apply Hnot. now left.
Qed.

Lemma annual_sends n endpoint location args w :
  ~ In "email" location -> ~ In "key" location ->
  sends {| name := n;
           handler := fun params =>
             handleAnnualRequest endpoint params (pick params location) |} args w.
Proof.
  intros He Hk. unfold sends. cbn [handler name].
  pose proof (handleAnnualRequest_cases endpoint args location w) as Hc.
  destruct (precheck _ _) as [c|t] eqn:E; [|left; now rewrite Hc].
  destruct Hc as [Hc _]. apply precheck_resolved in E.
  destruct (resolved_truthy _ _ _ c E) as [Hte Htk].
  right. do 2 eexists. split; [exact Hc|]. unfold annual_params. split; [|intros _].
  - eapply carries_intro; [exact Hte|].
    apply obj_spread_keeps; [exact He | simpl; auto].
  - eapply carries_intro; [exact Htk|].
    apply obj_spread_keeps; [exact Hk | simpl; auto].
Qed.

Ltac not_listed := simpl; intros H; repeat (destruct H as [H|H]; [discriminate H|]); exact H.

Ltac each_tool Hin :=
  simpl in Hin; repeat (destruct Hin as [<- | Hin]); try contradiction.

Lemma every_tool_sends t args w : In t allTools -> sends t args w.
Proof.
  intros Hin. unfold allTools in Hin.
  repeat (apply in_app_or in Hin as [Hin | Hin]).
  - each_tool Hin; [apply signup_sends | apply isAvailable_sends].
  - each_tool Hin; apply list_sends.
  - each_tool Hin; apply monitor_sends.
  - each_tool Hin; apply sample_sends.
  - each_tool Hin; apply daily_sends.
  - each_tool Hin; apply quarterly_sends.
  - each_tool Hin; apply annual_sends; not_listed.
Qed.

(** ** Dispatch *)

Lemma dispatch_unknown (tools : gmap string McpTool) n args w :
  tools !! n = None ->
  dispatch tools n args w
  = (Ok {| content := [ {| text := "Unknown tool: " +:+ n |} ]; isError := Some true |}, w).
Proof. intros H. unfold dispatch. now rewrite H. Qed.

Lemma dispatch_known (tools : gmap string McpTool) n tool args w :
  tools !! n = Some tool ->
  dispatch tools n args w
  = match handler tool args w with
    | (Ok r, w') => (Ok r, w')
    | (Throw t, w') =>
        (Ok {| content := [ {| text := "Error: " +:+ thrown_text t |} ];
               isError := Some true |}, w')
    end.
Proof.
  intros H. unfold dispatch, try_catch. rewrite H.
  destruct (handler tool args w) as [[r|t] w']; reflexivity.
Qed.

Lemma dispatch_world (tools : gmap string McpTool) n args w :
  snd (dispatch tools n args w)
  = match tools !! n with
    | None => w
    | Some tool => snd (handler tool args w)
    end.
Proof.
  destruct (tools !! n) as [tool|] eqn:E.
  - rewrite (dispatch_known _ _ _ _ _ E).
    destruct (handler tool args w) as [[r|t] w']; reflexivity.
  - now rewrite (dispatch_unknown _ _ _ _ E).
Qed.

(** The table built from a list of tools holds tools of the list, each
    under its own name. *)
Lemma tool_map_lookup tools n tool :
  tool_map tools !! n = Some tool -> In tool tools /\ name tool = n.
Proof.
  unfold tool_map.
  assert (Hgen : forall (acc : gmap string McpTool),
             (forall n t, acc !! n = Some t -> In t tools /\ name t = n) ->
             forall l, (forall t, In t l -> In t tools) ->
             forall n t, fold_left (fun m tool => <[name tool := tool]> m) l acc !! n = Some t ->
                         In t tools /\ name t = n).
  { intros acc Hacc l. revert acc Hacc.
    induction l as [|x l IH]; intros acc Hacc Hl n' t'; simpl.
    - apply Hacc.
    - apply IH.
      + intros n0 t0. destruct (decide (name x = n0)) as [<-|Hne].
        * rewrite lookup_insert_eq. intros [= <-]. split; [apply Hl; now left | reflexivity].
        * rewrite lookup_insert_ne by exact Hne. apply Hacc.
      + intros t0 Ht0. apply Hl. now right. }
  apply (Hgen ∅); [intros n0 t0; rewrite lookup_empty; discriminate | auto].
Qed.

Lemma callTool_sends n args w :
  snd (callTool n args w) = w \/
  exists endpoint params,
    snd (callTool n args w) = snd (aqs endpoint params w) /\
    carries "email" (buildUrl endpoint params) /\
    (n <> "aqs_signup" -> carries "key" (buildUrl endpoint params)).
Proof.
  unfold callTool. rewrite dispatch_world.
  destruct (toolMap !! n) as [tool|] eqn:E; [|now left].
  apply tool_map_lookup in E as [Hin <-].
  apply (every_tool_sends tool args w Hin).
Qed.

(** ** The throttle over a run of calls *)

Lemma spaced_snoc starts x :
  spaced starts ->
  (forall t, last starts = Some t -> 0 < t -> RATE_LIMIT_MS <= x - t) ->
  spaced (starts ++ [x]).
Proof.
  intros Hs Hx i t1 t2 H1 H2 Hpos.
  destruct (decide (S i < List.length starts)%nat) as [Hlt|Hge].
  - rewrite lookup_app_l in H1 by lia. rewrite lookup_app_l in H2 by lia. eauto.
  - assert (S i = List.length starts) as Hi.
    { apply lookup_lt_Some in H2. rewrite length_app in H2. simpl in H2. lia. }
    rewrite lookup_app_l in H1 by lia.
    rewrite lookup_app_r in H2 by lia.
    replace (S i - List.length starts)%nat with 0%nat in H2 by lia.
    injection H2 as <-. apply Hx; [|exact Hpos].
    rewrite last_lookup. rewrite <- Hi. simpl. exact H1.
Qed.

Lemma request_starts_aqs endpoint params w :
  request_starts (snd (aqs endpoint params w))
  = request_starts w ++ [lastRequestTime (snd (aqs endpoint params w))].
Proof.
  destruct (aqs_effects endpoint params w) as (Hreq & Hm & _).
  unfold request_starts. rewrite Hreq, map_app, Hm. reflexivity.
Qed.

Lemma aqs_throttled endpoint params w :
  throttled w -> throttled (snd (aqs endpoint params w)).
Proof.
  intros (Hp & Hs & Hl).
  destruct (aqs_effects endpoint params w) as (_ & Hm & _ & _ & Hpun).
  destruct (enforceRateLimit_spacing w Hp) as (_ & _ & Hgap).
  split; [now apply Hpun|]. rewrite request_starts_aqs. split.
  - apply spaced_snoc; [exact Hs|]. intros t Ht Hpos.
    rewrite Hm. apply Hl in Ht. subst t. specialize (Hgap Hpos). lia.
  - intros t. rewrite last_snoc. now intros [= <-].
Qed.

Lemma aqs_after_epoch endpoint params w :
  punctual w -> after_epoch w -> after_epoch (snd (aqs endpoint params w)).
Proof.
  intros Hp (Hnow & Hall).
  destruct (aqs_effects endpoint params w) as (_ & Hm & _ & _ & Hpun).
  destruct (enforceRateLimit_spacing w Hp) as (_ & Hmono & _).
  destruct (enforceRateLimit_effects w) as (_ & Hg & _).
  destruct (Hpun Hp) as (_ & Hlater).
  split; [lia|]. rewrite request_starts_aqs. apply Forall_app. split; [exact Hall|].
  constructor; [|constructor]. rewrite Hm, Hg. lia.
Qed.

Lemma advance_throttled d w : throttled w -> throttled (advance d w).
Proof. intros H. exact H. Qed.

Lemma advance_after_epoch d w : 0 <= d -> after_epoch w -> after_epoch (advance d w).
Proof. intros Hd (Hnow & Hall). split; [simpl; lia | exact Hall]. Qed.

Lemma callTool_throttled n args w :
  throttled w -> throttled (snd (callTool n args w)).
Proof.
  intros H. destruct (callTool_sends n args w) as [-> | (ep & ps & -> & _)];
    [exact H | now apply aqs_throttled].
Qed.

Lemma callTool_after_epoch n args w :
  punctual w -> after_epoch w -> after_epoch (snd (callTool n args w)).
Proof.
  intros Hp H. destruct (callTool_sends n args w) as [-> | (ep & ps & -> & _)];
    [exact H | now apply aqs_after_epoch].
Qed.

Lemma serve_throttled calls w :
  throttled w -> throttled (serve calls w).
Proof.
  revert w. induction calls as [|c calls IH]; intros w H; cbn [serve]; [exact H|].
  apply IH. apply callTool_throttled. now apply advance_throttled.
Qed.

Lemma serve_after_epoch calls w :
  Forall (fun c => 0 <= idle_before c) calls ->
  throttled w -> after_epoch w -> after_epoch (serve calls w).
Proof.
  revert w. induction calls as [|c calls IH]; intros w Hidle Ht Ha; cbn [serve]; [exact Ha|].
  inversion Hidle as [|? ? Hc Hrest]; subst.
  apply IH; [exact Hrest | |].
  - apply callTool_throttled. now apply advance_throttled.
  - apply callTool_after_epoch; [apply Ht | now apply advance_after_epoch].
Qed.

(** C1. In a process whose calls are served one at a time, with timers
    that do not fire early, two consecutive request starts are at least
    5000 ms apart whenever the earlier one is a positive clock reading
    (the marker 0 means that no request was made); with a clock after the
    epoch that is every consecutive pair. The marker holds the start of the
    latest request. *)
Theorem throttle_spacing (calls : list ToolCall) (w : World) :
  Forall (fun d => 0 <= d) (delays w) ->
  Forall (fun c => 0 <= idle_before c) calls ->
  requests w = [] ->
  let starts := request_starts (serve calls w) in
  (forall i t1 t2, starts !! i = Some t1 -> starts !! S i = Some t2 ->
                   0 < t1 -> RATE_LIMIT_MS <= t2 - t1) /\
  (0 < now w ->
   forall i t1 t2, starts !! i = Some t1 -> starts !! S i = Some t2 ->
                   RATE_LIMIT_MS <= t2 - t1) /\
  (forall t, last starts = Some t -> lastRequestTime (serve calls w) = t).
Proof.
  intros Hd Hidle Hreq starts.
  assert (Ht : throttled w).
  { split; [exact Hd|]. unfold request_starts. rewrite Hreq. simpl.
    split; [intros i t1 t2 H; discriminate H | intros t H; discriminate H]. }
  pose proof (serve_throttled calls w Ht) as (_ & Hs & Hl). fold starts in Hs, Hl.
  split; [exact Hs|]. split.
  - intros Hnow i t1 t2 H1 H2. apply (Hs i t1 t2 H1 H2).
    assert (Ha : after_epoch w).
    { split; [exact Hnow|]. unfold request_starts. rewrite Hreq. constructor. }
    destruct (serve_after_epoch calls w Hidle Ht Ha) as (_ & Hall).
    fold starts in Hall. rewrite Forall_forall in Hall. apply Hall.
    eapply list_elem_of_lookup_2. exact H1.
  - intros t H. symmetry. now apply Hl.
Qed.

Lemma tool_names_distinct : NoDup (name <$> allTools).
Proof. compute_done. Qed.

Lemma tool_map_fresh tools (acc : gmap string McpTool) n :
  ~ In n (List.map name tools) ->
  fold_left (fun m tool => <[name tool := tool]> m) tools acc !! n = acc !! n.
Proof.
  revert acc. induction tools as [|x tools IH]; intros acc Hn; simpl; [reflexivity|].
  rewrite IH by (intros H; apply Hn; now right).
  apply lookup_insert_ne. intros Heq. apply Hn. now left.
Qed.

Lemma tool_map_complete tools t :
  NoDup (name <$> tools) -> In t tools -> tool_map tools !! name t = Some t.
Proof.
  unfold tool_map. generalize (∅ : gmap string McpTool) as acc.
  induction tools as [|x tools IH]; intros acc Hnd Hin; [destruct Hin|].
  simpl in *. apply NoDup_cons in Hnd as [Hx Hnd].
  destruct Hin as [-> | Hin].
  - rewrite tool_map_fresh; [apply lookup_insert_eq|].
    intros H. apply Hx. now apply list_elem_of_In.
  - now apply IH.
Qed.

Lemma toolMap_lookup t : In t allTools -> toolMap !! name t = Some t.
Proof. apply tool_map_complete, tool_names_distinct. Qed.

Lemma dateTools_all t : In t dateTools -> In t allTools.
Proof.
  intros H. unfold allTools. apply in_or_app. right. apply in_or_app. right. exact H.
Qed.

(** ** Validation comes before the gate *)

Lemma validateDateFormat_well_formed s fieldName :
  well_formed_date s -> validateDateFormat s fieldName = Ok tt.
Proof.
  intros (Htok & Hm & Hd & Hy). now apply validateDateFormat_in_range.
Qed.

Lemma precheck_throws e args :
  Str.js_substring 0 4 (to_String (arg args "bdate"))
    <> Str.js_substring 0 4 (to_String (arg args "edate")) ->
  exists t, precheck e args = Throw t.
Proof.
  intros Hne. unfold precheck.
  destruct (resolveCredentials _ _ _) as [c|t]; [|eauto].
  destruct (validateDateFormat _ "bdate") as [[]|t]; [|eauto].
  destruct (validateDateFormat _ "edate") as [[]|t]; [|eauto].
  destruct (validateDateRange_cases (to_String (arg args "bdate"))
                                    (to_String (arg args "edate")))
    as [[Heq _] | [_ ->]]; [contradiction | unfold raise; eauto].
Qed.

Lemma precheck_cross_year e args c b d :
  arg args "bdate" = VStr b -> arg args "edate" = VStr d ->
  resolveCredentials e (arg args "email") (arg args "key") = Ok c ->
  well_formed_date b -> well_formed_date d -> year_of b <> year_of d ->
  precheck e args = raise (CrossYearRange b d).
Proof.
  intros Hb Hd Hc Hwb Hwd Hy. unfold precheck. rewrite Hc, Hb, Hd. simpl.
  rewrite !validateDateFormat_well_formed by assumption.
  destruct (validateDateRange_cases b d) as [[Heq _] | [_ ->]]; [|reflexivity].
  exfalso. apply Hy. apply same_year_prefix; [apply Hwb | apply Hwd | exact Heq].
Qed.

(** A date-taking handler whose checks fail leaves the world as it was and
    reports the failure in the way of its module. *)
Lemma date_tool_failure t args w thrown :
  In t dateTools -> precheck (env w) args = Throw thrown ->
  snd (handler t args w) = w /\
  (fst (handler t args w) = Throw thrown \/
   fst (handler t args w)
   = Ok (text_result
           (JSON.pretty
              (JSON.obj [("error", Some (JStr (message_or "Unknown error occurred" thrown)))]))) \/
   fst (handler t args w)
   = Ok (text_result ("Error: " +:+ message_or "Unknown error occurred" thrown))).
Proof.
  intros Hin Hpre. unfold dateTools in Hin.
  repeat (apply in_app_or in Hin as [Hin | Hin]).
  - simpl in Hin. repeat (destruct Hin as [<- | Hin]); try contradiction; simpl;
      match goal with
      | |- context [monitor_handler ?ep ?loc] =>
          pose proof (monitor_handler_cases ep loc args w) as Hc
      end; rewrite Hpre in Hc; rewrite Hc; simpl; auto.
  - simpl in Hin. repeat (destruct Hin as [<- | Hin]); try contradiction; simpl;
      match goal with
      | |- context [sample_handler ?ep ?loc] =>
          pose proof (sample_handler_cases ep loc args w) as Hc
      end; rewrite Hpre in Hc; rewrite Hc; simpl; auto.
  - simpl in Hin. repeat (destruct Hin as [<- | Hin]); try contradiction; simpl;
      match goal with
      | |- context [daily_handler ?ep ?loc] =>
          pose proof (daily_handler_cases ep loc args w) as Hc
      end; rewrite Hpre in Hc; rewrite Hc; simpl; auto.
  - simpl in Hin. repeat (destruct Hin as [<- | Hin]); try contradiction; simpl;
      match goal with
      | |- context [quarterly_handler ?ep ?loc] =>
          pose proof (quarterly_handler_cases ep loc args w) as Hc
      end; rewrite Hpre in Hc; rewrite Hc; simpl; auto.
  - simpl in Hin. repeat (destruct Hin as [<- | Hin]); try contradiction;
      cbv [handler annualSummaryBySite annualSummaryByCounty annualSummaryByState
           annualSummaryByBox annualSummaryByCbsa];
      match goal with
      | |- context [handleAnnualRequest ?ep _ (pick _ ?loc)] =>
          pose proof (handleAnnualRequest_cases ep args loc w) as Hc
      end; rewrite Hpre in Hc; rewrite Hc; simpl; auto.
Qed.

(** C8. Once the network has answered: a status outside 200..299 makes
    the transport fail with a TransportError carrying the status code and
    the reason phrase; a parsed envelope whose header array starts with a
    header of status Failed makes it fail with a TransportError carrying
    that header; every other parsed envelope is returned as it is. *)
Theorem aqs_classification (endpoint : string) (params : Params) (w : World)
    (r : HttpResponse) :
  network w (List.length (requests w)) (buildUrl endpoint params) = FetchResolved r ->
  (response_ok r = true <-> 200 <= http_status r <= 299) /\
  (response_ok r = false ->
   fst (aqs endpoint params w)
   = raise (TransportError (HttpStatusError (http_status r) (http_statusText r)))) /\
  (forall d h rest,
     response_ok r = true -> http_json r = inr d ->
     Header d = Some (h :: rest) -> status h = "Failed" ->
     fst (aqs endpoint params w) = raise (TransportError (ApiStatusError h))) /\
  (forall d,
     response_ok r = true -> http_json r = inr d ->
     (forall h rest, Header d = Some (h :: rest) -> status h <> "Failed") ->
     fst (aqs endpoint params w) = Ok d) /\
  (forall code reason,
     message (TransportError (HttpStatusError code reason))
     = "AQS API request failed: HTTP " +:+ Str.of_Z code +:+ ": " +:+ reason) /\
  (forall h,
     message (TransportError (ApiStatusError h))
     = "AQS API request failed: AQS API Error: " +:+ JSON.stringify (JSON.of_header h)).
Proof.
  intros Hnet. rewrite aqs_outcome, Hnet. unfold classify.
  split; [|split; [|split; [|split; [|split]]]].
  - unfold response_ok. rewrite andb_true_iff, !Z.leb_le. tauto.
  - intros ->. reflexivity.
  - intros d h rest -> -> Hh Hs. unfold header_failed. rewrite Hh, Hs. reflexivity.
  - intros d -> -> Hh. unfold header_failed.
    destruct (Header d) as [[|h rest]|]; try reflexivity.
    destruct (String.eqb_spec (status h) "Failed") as [Heq|Hne]; [|reflexivity].
    exfalso. now apply (Hh h rest).
  - reflexivity.
  - reflexivity.
Qed.

(** Failures of the runtime are transport errors too: a rejected fetch and a
    body that is not JSON are wrapped in the same way. *)
Lemma aqs_runtime_failures endpoint params w :
  (forall e,
     network w (List.length (requests w)) (buildUrl endpoint params)
     = FetchRejected (ThrowError e) ->
     fst (aqs endpoint params w) = raise (TransportError e)) /\
  (forall r e,
     network w (List.length (requests w)) (buildUrl endpoint params) = FetchResolved r ->
     response_ok r = true -> http_json r = inl (ThrowError e) ->
     fst (aqs endpoint params w) = raise (TransportError e)).
Proof.
  split.
  - intros e H. rewrite aqs_outcome, H. reflexivity.
  - intros r e H Hok Hj. rewrite aqs_outcome, H. unfold classify. now rewrite Hok, Hj.
Qed.

(** C2, amended. The dispatcher never throws. An unknown tool name is
    answered with the text Unknown tool and the error flag; what a handler
    returns is passed on unchanged; whatever a handler throws is turned
    into the text Error followed by the message, and that answer carries
    the error flag too. *)
Theorem dispatch_spec (tools : gmap string McpTool) (n : string)
    (args : gmap string JsVal) (w : World) :
  (exists r, fst (dispatch tools n args w) = Ok r) /\
  (tools !! n = None ->
   dispatch tools n args w
   = (Ok {| content := [ {| text := "Unknown tool: " +:+ n |} ]; isError := Some true |}, w)) /\
  (forall tool, tools !! n = Some tool ->
     (forall r w', handler tool args w = (Ok r, w') ->
                   dispatch tools n args w = (Ok r, w')) /\
     (forall t w', handler tool args w = (Throw t, w') ->
                   dispatch tools n args w
                   = (Ok {| content := [ {| text := "Error: " +:+ thrown_text t |} ];
                            isError := Some true |}, w'))).
Proof.
  split; [|split].
  - destruct (tools !! n) as [tool|] eqn:E.
    + rewrite (dispatch_known _ _ _ _ _ E).
      destruct (handler tool args w) as [[r|t] w']; simpl; eauto.
    + rewrite (dispatch_unknown _ _ _ _ E). simpl. eauto.
  - apply dispatch_unknown.
  - intros tool E. rewrite (dispatch_known _ _ _ _ _ E).
    split; intros ? ? ->; reflexivity.
Qed.

Lemma requests_aqs endpoint params w :
  requests (snd (aqs endpoint params w))
  = requests w ++ [(lastRequestTime (snd (aqs endpoint params w)), buildUrl endpoint params)].
Proof.
  destruct (aqs_effects endpoint params w) as (Hreq & Hm & _). now rewrite Hreq, Hm.
Qed.

Lemma signup_call args w :
  snd (callTool "aqs_signup" args w) = w \/
  exists s, s <> EmptyString /\
            snd (callTool "aqs_signup" args w) = snd (aqs "signup" [("email", VStr s)] w).
Proof.
  unfold callTool. rewrite dispatch_world.
  assert (toolMap !! "aqs_signup" = Some signupTool) as ->.
  { apply (toolMap_lookup signupTool). unfold allTools. apply in_or_app. left. left. reflexivity. }
  destruct (signup_cases args w) as [_ [H | (s & _ & Hne & H)]]; eauto.
Qed.

(** C3, amended. A tool call issues at most one request. A request of any
    tool carries a non-empty email; a request of any tool but aqs_signup
    carries a non-empty key as well; the request of aqs_signup has the email
    as its only query pair. *)
Theorem requests_carry_credentials (n : string) (args : gmap string JsVal) (w : World) :
  exists new,
    requests (snd (callTool n args w)) = requests w ++ new /\
    (List.length new <= 1)%nat /\
    Forall (fun r => carries "email" (snd r)) new /\
    (n <> "aqs_signup" -> Forall (fun r => carries "key" (snd r)) new) /\
    (n = "aqs_signup" ->
     Forall (fun r => exists s, s <> EmptyString /\ searchParams (snd r) = [("email", s)]) new).
Proof.
  destruct (callTool_sends n args w) as [Hw | (ep & ps & Hw & He & Hk)].
  - exists []. rewrite Hw, app_nil_r. repeat split; auto.
  - eexists. rewrite Hw, requests_aqs. split; [reflexivity|].
    split; [simpl; lia|]. split; [repeat constructor; exact He|]. split.
    + intros Hn. repeat constructor. now apply Hk.
    + intros ->. destruct (signup_call args w) as [Hs | (s & Hne & Hs)].
      * exfalso. rewrite Hs in Hw.
        pose proof (requests_aqs ep ps w) as Hreq. rewrite <- Hw in Hreq.
        apply (f_equal (@List.length _)) in Hreq. rewrite length_app in Hreq.
        simpl in Hreq. lia.
      * rewrite Hs in Hw.
        pose proof (requests_aqs ep ps w) as Hreq. rewrite <- Hw, requests_aqs in Hreq.
        apply app_inv_head in Hreq. injection Hreq as Hurl.
        repeat constructor. simpl. exists s. split; [exact Hne|].
        rewrite <- Hurl, buildUrl_eq. simpl.
        destruct (String.eqb_spec s ""); [contradiction | reflexivity].
Qed.

(** C9. For every date-taking tool, a call that fails one of the checks
    made before the request leaves the world as it was. In particular a
    call whose begin and end dates are well formed and lie in different
    years keeps the throttle marker and issues no request; when the
    credentials resolve, it is answered with the CrossYearRange failure, in
    the form of the tool's module. *)
Theorem cross_year_rejected_before_gate (t : McpTool) (args : gmap string JsVal)
    (w : World) :
  In t dateTools ->
  (forall thrown, precheck (env w) args = Throw thrown ->
     snd (callTool (name t) args w) = w) /\
  (forall b e,
     arg args "bdate" = VStr b -> arg args "edate" = VStr e ->
     well_formed_date b -> well_formed_date e -> year_of b <> year_of e ->
     snd (callTool (name t) args w) = w /\
     lastRequestTime (snd (callTool (name t) args w)) = lastRequestTime w /\
     requests (snd (callTool (name t) args w)) = requests w /\
     (forall c, resolveCredentials (env w) (arg args "email") (arg args "key") = Ok c ->
        exists r, fst (callTool (name t) args w) = Ok r /\
                  In r (failure_reports (CrossYearRange b e)))).
Proof.
  intros Hin.
  pose proof (toolMap_lookup t (dateTools_all t Hin)) as Hlook.
  assert (Hquiet : forall thrown, precheck (env w) args = Throw thrown ->
                                  snd (callTool (name t) args w) = w).
  { intros thrown Hpre.
    destruct (date_tool_failure t args w thrown Hin Hpre) as (Hw & _).
    unfold callTool. now rewrite dispatch_world, Hlook. }
  split; [exact Hquiet|].
  intros b e Hb He Hwb Hwe Hy.
  assert (Hne : Str.js_substring 0 4 (to_String (arg args "bdate"))
                <> Str.js_substring 0 4 (to_String (arg args "edate"))).
  { rewrite Hb, He. simpl. intros Heq. apply Hy.
    apply same_year_prefix; [apply Hwb | apply Hwe | exact Heq]. }
  destruct (precheck_throws (env w) args Hne) as [thrown Hpre].
  destruct (date_tool_failure t args w thrown Hin Hpre) as (Hw & Hout).
  pose proof (Hquiet thrown Hpre) as Hworld.
  split; [exact Hworld|]. rewrite Hworld. split; [reflexivity|]. split; [reflexivity|].
  intros c Hc.
  rewrite (precheck_cross_year _ _ _ _ _ Hb He Hc Hwb Hwe Hy) in Hpre.
  injection Hpre as <-.
  unfold callTool. rewrite (dispatch_known _ _ _ _ _ Hlook).
  destruct (handler t args w) as [[r|t'] w'] eqn:Eh; simpl in Hout.
  - exists r. split; [reflexivity|].
    destruct Hout as [H | [H | H]]; [discriminate H | |];
      injection H as ->; simpl; auto.
  - destruct Hout as [H | [H | H]]; try discriminate H.
    injection H as ->. eexists. split; [reflexivity|]. simpl. auto.
Qed.

(** ** Further properties of the client *)

Lemma enforceRateLimit_log w :
  let g := snd (enforceRateLimit w) in
  (lastRequestTime w <= 0 \/ RATE_LIMIT_MS <= now w - lastRequestTime w ->
   stderr g = stderr w) /\
  (0 < lastRequestTime w -> now w - lastRequestTime w < RATE_LIMIT_MS ->
   stderr g = stderr w ++ [wait_line (RATE_LIMIT_MS - (now w - lastRequestTime w))]).
Proof.
  unfold enforceRateLimit, RATE_LIMIT_MS, wait_line. run_monad.
  destruct (Z.ltb_spec (now w - lastRequestTime w) 5000);
    destruct (Z.ltb_spec 0 (lastRequestTime w));
    rewrite ?Z.gtb_ltb; simpl;
    repeat match goal with
           | |- context [?a <? ?b] => destruct (Z.ltb_spec a b); try lia
           end; simpl; split; intros; try reflexivity; lia.
Qed.

(** X1. The gate waits only when a request was made before (the marker is
    positive) and less than the interval has elapsed since; it then asks
    the timer for exactly what is left of the interval and writes one line
    that names that wait. In every other state, also when exactly the
    interval has elapsed, the clock is not moved and nothing is written.
    In both cases the marker ends as the clock reading at the end, and the
    gate does not throw. *)
Theorem enforceRateLimit_wait (w : World) :
  let g := snd (enforceRateLimit w) in
  let elapsed := now w - lastRequestTime w in
  fst (enforceRateLimit w) = Ok tt /\
  lastRequestTime g = now g /\
  (lastRequestTime w <= 0 \/ RATE_LIMIT_MS <= elapsed ->
   now g = now w /\ delays g = delays w /\ stderr g = stderr w) /\
  (0 < lastRequestTime w -> elapsed < RATE_LIMIT_MS ->
   now g = now w + (RATE_LIMIT_MS - elapsed) + hd 0 (delays w) /\
   delays g = tl (delays w) /\
   stderr g = stderr w ++ [wait_line (RATE_LIMIT_MS - elapsed)]).
Proof.
  intros g elapsed.
  destruct (enforceRateLimit_effects w) as (Hok & Hm & _ & _ & _ & Hfree & Hwait).
  destruct (enforceRateLimit_log w) as (Hlog0 & Hlog1).
  split; [exact Hok|]. split; [exact Hm|]. split.
  - intros H. destruct (Hfree H) as (? & ? & ?). auto.
  - intros Hp Hlt. destruct (Hwait Hp Hlt) as (? & ?). split; [assumption|].
    split; [assumption|]. now apply Hlog1.
Qed.

Lemma aqs_log endpoint params w :
  stderr (snd (aqs endpoint params w))
  = stderr (snd (enforceRateLimit w)) ++ ["[AQS] Requesting: " +:+ endpoint].
Proof.
  unfold aqs. rewrite bind_gate. set (g := snd (enforceRateLimit w)).
  unfold fetch, response_json. run_monad.
  destruct (network g _ _) as [[e|r]|r]; simpl; try reflexivity.
  destruct (response_ok r); simpl; [|reflexivity].
  destruct (http_json r) as [[e|x]|d]; simpl; try reflexivity.
  destruct (header_failed d); reflexivity.
Qed.

(** X2. Whatever the network answers, one call of the transport issues
    exactly one GET, to the URL built from its endpoint and parameters, and
    leaves the marker at the start of that GET: a failed request counts for
    the throttle like a successful one, and nothing is sent twice. The
    environment and the network are left as they were. *)
Theorem aqs_sends_once (endpoint : string) (params : Params) (w : World) :
  let w' := snd (aqs endpoint params w) in
  requests w' = requests w ++ [(lastRequestTime w', buildUrl endpoint params)] /\
  lastRequestTime w' = now (snd (enforceRateLimit w)) /\
  env w' = env w /\ network w' = network w.
Proof.
  intros w'. destruct (aqs_effects endpoint params w) as (Hreq & Hm & He & Hn & _).
  destruct (enforceRateLimit_effects w) as (_ & Hg & _).
  subst w'. rewrite Hreq, Hm, Hg. auto.
Qed.

(** X3. Every Error the transport throws is a TransportError, whose
    message starts with the fixed prefix: a rejected fetch and a body that
    is not JSON are wrapped like the failures the transport finds itself.
    A thrown value that is not an Error passes through as it is. *)
Theorem aqs_throws_transport_errors (endpoint : string) (params : Params) (w : World) :
  let answer := network w (List.length (requests w)) (buildUrl endpoint params) in
  (forall e, fst (aqs endpoint params w) = Throw (ThrowError e) ->
     exists cause, e = TransportError cause /\
                   message e = "AQS API request failed: " +:+ message cause) /\
  (forall e, answer = FetchRejected (ThrowError e) ->
     fst (aqs endpoint params w) = raise (TransportError e)) /\
  (forall r e, answer = FetchResolved r -> response_ok r = true ->
     http_json r = inl (ThrowError e) ->
     fst (aqs endpoint params w) = raise (TransportError e)) /\
  (forall v, answer = FetchRejected (ThrowOther v) ->
     fst (aqs endpoint params w) = Throw (ThrowOther v)).
Proof.
  intros answer. rewrite aqs_outcome. fold answer. unfold classify, raise.
  split; [|split; [|split]].
  - intros e. destruct answer as [[e0|v]|r].
    + intros [= <-]. eauto.
    + discriminate.
    + destruct (response_ok r); [|intros [= <-]; eauto].
      destruct (http_json r) as [[e0|v]|d]; [intros [= <-]; eauto | discriminate |].
      destruct (header_failed d); [intros [= <-]; eauto | discriminate].
  - intros e ->. reflexivity.
  - intros r e -> -> ->. reflexivity.
  - intros v ->. reflexivity.
Qed.

(** X4. What the transport writes to the diagnostic channel depends on the
    endpoint and on the state of the throttle only: the parameters, and so
    the email and the key, never reach it. *)
Theorem aqs_log_ignores_params (endpoint : string) (params params' : Params) (w : World) :
  stderr (snd (aqs endpoint params w)) = stderr (snd (aqs endpoint params' w)).
Proof. now rewrite !aqs_log. Qed.

(** ** Further properties of a run of calls *)

Lemma spaced_apart (starts : list Z) :
  spaced starts -> Forall (fun t => 0 < t) starts ->
  forall k i ti tk,
    starts !! i = Some ti -> starts !! (i + k)%nat = Some tk ->
    RATE_LIMIT_MS * Z.of_nat k <= tk - ti.
Proof.
  intros Hs Hpos. induction k as [|k IH]; intros i ti tk Hi Hk.
  - rewrite Nat.add_0_r in Hk. rewrite Hi in Hk. injection Hk as <-.
    unfold RATE_LIMIT_MS. lia.
  - assert (Hlt : (i + k < List.length starts)%nat).
    { apply lookup_lt_Some in Hk. lia. }
    destruct (lookup_lt_is_Some_2 starts (i + k)%nat Hlt) as [tm Hm].
    specialize (IH i ti tm Hi Hm).
    replace (i + S k)%nat with (S (i + k)) in Hk by lia.
    assert (0 < tm).
    { rewrite Forall_forall in Hpos. apply Hpos. eapply list_elem_of_lookup_2. exact Hm. }
    specialize (Hs (i + k)%nat tm tk Hm Hk). unfold RATE_LIMIT_MS in *. lia.
Qed.

(** X5. In a process whose calls are served one at a time, with timers that
    do not fire early and a clock after the epoch, any two requests are as
    far apart as the number of requests between them demands: the request
    that comes k places after another starts at least k times 5000 ms
    later. So thirteen consecutive requests never start within less than
    60 seconds. *)
Theorem throttle_rate_bound (calls : list ToolCall) (w : World) :
  Forall (fun d => 0 <= d) (delays w) ->
  Forall (fun c => 0 <= idle_before c) calls ->
  requests w = [] -> 0 < now w ->
  let starts := request_starts (serve calls w) in
  (forall i k ti tk,
     starts !! i = Some ti -> starts !! (i + k)%nat = Some tk ->
     RATE_LIMIT_MS * Z.of_nat k <= tk - ti) /\
  (forall i ti tk,
     starts !! i = Some ti -> starts !! (i + 12)%nat = Some tk -> 60000 <= tk - ti).
Proof.
  intros Hd Hidle Hreq Hnow starts.
  assert (Ht : throttled w).
  { split; [exact Hd|]. unfold request_starts. rewrite Hreq. simpl.
    split; [intros i t1 t2 H; discriminate H | intros t H; discriminate H]. }
  assert (Ha : after_epoch w).
  { split; [exact Hnow|]. unfold request_starts. rewrite Hreq. constructor. }
  pose proof (serve_throttled calls w Ht) as (_ & Hs & _).
  pose proof (serve_after_epoch calls w Hidle Ht Ha) as (_ & Hall).
  fold starts in Hs, Hall.
  assert (Hfar := spaced_apart starts Hs Hall).
  split.
  - intros i k. apply Hfar.
  - intros i ti tk Hi Hk. specialize (Hfar 12%nat i ti tk Hi Hk).
    unfold RATE_LIMIT_MS in Hfar. lia.
Qed.

Lemma callTool_requests n args w :
  exists new, requests (snd (callTool n args w)) = requests w ++ new /\
              (List.length new <= 1)%nat.
Proof.
  destruct (callTool_sends n args w) as [-> | (ep & ps & -> & _)].
  - exists []. rewrite app_nil_r. auto.
  - eexists. rewrite requests_aqs. split; [reflexivity | simpl; lia].
Qed.

(** X6. Serving calls only ever appends to the log of requests, and by at
    most one request for each call served: no call is answered with more
    than one request, and no tool sends requests on its own. *)
Theorem serve_request_count (calls : list ToolCall) (w : World) :
  exists new,
    requests (serve calls w) = requests w ++ new /\
    (List.length new <= List.length calls)%nat.
Proof.
  revert w. induction calls as [|c calls IH]; intros w; cbn [serve].
  - exists []. rewrite app_nil_r. auto.
  - destruct (callTool_requests (tool_name c) (arguments c) (advance (idle_before c) w))
      as (n1 & H1 & L1).
    destruct (IH (snd (callTool (tool_name c) (arguments c) (advance (idle_before c) w))))
      as (n2 & H2 & L2).
    exists (n1 ++ n2). rewrite H2, H1. cbn [requests advance].
    rewrite <- app_assoc. split; [reflexivity|].
    rewrite length_app. cbn [List.length]. lia.
Qed.

(** ** Further properties of the validators *)

(** X7. On a string of eight digits the three range checks are made in the
    order month, day, year, and the first that fails is the one reported,
    with the number that was read: a month out of range is reported
    whatever the day and the year are, and a day out of range whatever the
    year is. *)
Theorem validateDateFormat_first_failure (date fieldName : string) :
  is_date_token date ->
  (month_of date < 1 \/ 12 < month_of date ->
   validateDateFormat date fieldName
   = raise (InvalidDateValue fieldName PartMonth (Some (month_of date)))) /\
  (1 <= month_of date <= 12 -> day_of date < 1 \/ 31 < day_of date ->
   validateDateFormat date fieldName
   = raise (InvalidDateValue fieldName PartDay (Some (day_of date)))) /\
  (1 <= month_of date <= 12 -> 1 <= day_of date <= 31 ->
   year_of date < 1900 \/ 2100 < year_of date ->
   validateDateFormat date fieldName
   = raise (InvalidDateValue fieldName PartYear (Some (year_of date)))).
Proof.
  intros Htok. rewrite (validateDateFormat_token _ _ Htok). unfold checked_fields.
  repeat split; intros; split_cmp; simpl; try reflexivity; lia.
Qed.

Lemma validateDateFormat_accepts s fieldName :
  validateDateFormat s fieldName = Ok tt -> well_formed_date s.
Proof.
  intros H. destruct (match_digits 8 s) eqn:E.
  - apply match_digits_token in E. split; [exact E|].
    rewrite (validateDateFormat_token _ _ E) in H. unfold checked_fields in H.
    revert H. split_cmp; simpl; intros Hv; try discriminate Hv; lia.
  - unfold validateDateFormat in H. rewrite E in H. discriminate H.
Qed.

Lemma token_is_string v : is_date_token (to_String v) -> v = VStr (to_String v).
Proof.
  destruct v; simpl; intros [Hl _]; try discriminate Hl. reflexivity.
Qed.

(** ** Further properties of the date-taking tools *)

Lemma precheck_accepts e args c :
  precheck e args = Ok c ->
  resolveCredentials e (arg args "email") (arg args "key") = Ok c /\
  exists b d,
    arg args "bdate" = VStr b /\ arg args "edate" = VStr d /\
    well_formed_date b /\ well_formed_date d /\ year_of b = year_of d.
Proof.
  intros H. split; [now apply precheck_resolved|]. revert H. unfold precheck.
  destruct (resolveCredentials _ _ _) as [c'|t]; [|discriminate].
  destruct (validateDateFormat _ "bdate") as [[]|t] eqn:Eb; [|discriminate].
  destruct (validateDateFormat _ "edate") as [[]|t] eqn:Ee; [|discriminate].
  destruct (validateDateRange_cases (to_String (arg args "bdate"))
                                    (to_String (arg args "edate")))
    as [[Heq ->] | [_ ->]]; [|discriminate].
  intros _. apply validateDateFormat_accepts in Eb, Ee.
  exists (to_String (arg args "bdate")), (to_String (arg args "edate")).
  split; [apply token_is_string, Eb|]. split; [apply token_is_string, Ee|].
  split; [exact Eb|]. split; [exact Ee|].
  apply same_year_prefix; [apply Eb | apply Ee | exact Heq].
Qed.

(** A date-taking handler whose checks pass hands the two dates to the
    transport as they came. *)
Lemma date_tool_success t args w c :
  In t dateTools -> precheck (env w) args = Ok c ->
  exists endpoint params,
    snd (handler t args w) = snd (aqs endpoint params w) /\
    In ("bdate", arg args "bdate") params /\ In ("edate", arg args "edate") params.
Proof.
  intros Hin Hpre. unfold dateTools in Hin.
  repeat (apply in_app_or in Hin as [Hin | Hin]).
  - simpl in Hin. repeat (destruct Hin as [<- | Hin]); try contradiction; simpl;
      match goal with
      | |- context [monitor_handler ?ep ?loc] =>
          pose proof (monitor_handler_cases ep loc args w) as Hc
      end; rewrite Hpre in Hc; destruct Hc as [Hc _];
      do 2 eexists; (split; [exact Hc|]); unfold dated_params; simpl; auto 10.
  - simpl in Hin. repeat (destruct Hin as [<- | Hin]); try contradiction; simpl;
      match goal with
      | |- context [sample_handler ?ep ?loc] =>
          pose proof (sample_handler_cases ep loc args w) as Hc
      end; rewrite Hpre in Hc;
      do 2 eexists; (split; [exact Hc|]); unfold dated_params; simpl; auto 10.
  - simpl in Hin. repeat (destruct Hin as [<- | Hin]); try contradiction; simpl;
      match goal with
      | |- context [daily_handler ?ep ?loc] =>
          pose proof (daily_handler_cases ep loc args w) as Hc
      end; rewrite Hpre in Hc;
      do 2 eexists; (split; [exact Hc|]); unfold dated_params; simpl; auto 10.
  - simpl in Hin. repeat (destruct Hin as [<- | Hin]); try contradiction; simpl;
      match goal with
      | |- context [quarterly_handler ?ep ?loc] =>
          pose proof (quarterly_handler_cases ep loc args w) as Hc
      end; rewrite Hpre in Hc;
      do 2 eexists; (split; [exact Hc|]); unfold dated_params; simpl; auto 10.
  - simpl in Hin. repeat (destruct Hin as [<- | Hin]); try contradiction;
      cbv [handler annualSummaryBySite annualSummaryByCounty annualSummaryByState
           annualSummaryByBox annualSummaryByCbsa];
      match goal with
      | |- context [handleAnnualRequest ?ep _ (pick _ ?loc)] =>
          pose proof (handleAnnualRequest_cases ep args loc w) as Hc
      end; rewrite Hpre in Hc; destruct Hc as [Hc _];
      do 2 eexists; (split; [exact Hc|]); unfold annual_params;
      split; (apply obj_spread_keeps; [not_listed | simpl; auto 10]).
Qed.

(** X8. A date-taking tool never sends a request whose dates were not
    checked: every request it issues carries a begin and an end date that
    are well formed and lie in the same year. *)
Theorem dated_requests_are_validated (t : McpTool) (args : gmap string JsVal) (w : World) :
  In t dateTools ->
  exists new,
    requests (snd (callTool (name t) args w)) = requests w ++ new /\
    Forall (fun r =>
              exists b e,
                In ("bdate", b) (searchParams (snd r)) /\
                In ("edate", e) (searchParams (snd r)) /\
                well_formed_date b /\ well_formed_date e /\ year_of b = year_of e) new.
Proof.
  intros Hin.
  pose proof (toolMap_lookup t (dateTools_all t Hin)) as Hlook.
  unfold callTool. rewrite dispatch_world, Hlook.
  destruct (precheck (env w) args) as [c|thrown] eqn:Hpre.
  - destruct (date_tool_success t args w c Hin Hpre) as (ep & ps & Hw & Hb & He).
    destruct (precheck_accepts _ _ _ Hpre) as (_ & b & d & Eb & Ed & Wb & Wd & Hy).
    rewrite Hw, requests_aqs. eexists. split; [reflexivity|].
    repeat constructor. simpl. exists b, d. rewrite buildUrl_eq. simpl.
    rewrite Eb in Hb. rewrite Ed in He.
    assert (Hnb : b <> EmptyString) by (intros ->; destruct Wb as [[Hl _] _]; discriminate Hl).
    assert (Hnd : d <> EmptyString) by (intros ->; destruct Wd as [[Hl _] _]; discriminate Hl).
    repeat split; try apply in_non_empty_pairs; try apply Wb; try apply Wd; auto.
  - destruct (date_tool_failure t args w thrown Hin Hpre) as (Hw & _).
    rewrite Hw. exists []. rewrite app_nil_r. auto.
Qed.

Lemma date_tool_rejects t args w e :
  In t dateTools -> precheck (env w) args = raise e ->
  rejected_with (name t) args w e.
Proof.
  intros Hin Hpre. unfold raise in Hpre.
  destruct (date_tool_failure t args w _ Hin Hpre) as (Hw & Hout).
  pose proof (toolMap_lookup t (dateTools_all t Hin)) as Hlook.
  unfold rejected_with, callTool. rewrite dispatch_world, Hlook. split; [exact Hw|].
  rewrite (dispatch_known _ _ _ _ _ Hlook).
  destruct (handler t args w) as [[r|t'] w'] eqn:Eh; simpl in Hout.
  - exists r. split; [reflexivity|].
    destruct Hout as [H | [H | H]]; [discriminate H | |];
      injection H as ->; simpl; auto.
  - destruct Hout as [H | [H | H]]; try discriminate H.
    injection H as ->. eexists. split; [reflexivity|]. simpl. auto.
Qed.

(** X9. Every date-taking tool makes its checks in the same order, and
    the first that fails is the one reported, with nothing sent: missing
    credentials are reported whatever the dates are; with credentials, a
    failure of the begin date is reported whatever the end date is; then a
    failure of the end date. A date that is missing from the arguments is
    reported as a format failure of the text undefined. *)
Theorem date_tool_first_failure (t : McpTool) (args : gmap string JsVal) (w : World) :
  In t dateTools ->
  (forall e,
     resolveCredentials (env w) (arg args "email") (arg args "key") = raise e ->
     rejected_with (name t) args w e) /\
  (forall c e,
     resolveCredentials (env w) (arg args "email") (arg args "key") = Ok c ->
     validateDateFormat (to_String (arg args "bdate")) "bdate" = raise e ->
     rejected_with (name t) args w e) /\
  (forall c e,
     resolveCredentials (env w) (arg args "email") (arg args "key") = Ok c ->
     validateDateFormat (to_String (arg args "bdate")) "bdate" = Ok tt ->
     validateDateFormat (to_String (arg args "edate")) "edate" = raise e ->
     rejected_with (name t) args w e) /\
  (forall c,
     resolveCredentials (env w) (arg args "email") (arg args "key") = Ok c ->
     arg args "bdate" = VUndefined ->
     rejected_with (name t) args w (InvalidDateFormat "bdate" "undefined")).
Proof.
  intros Hin. split; [|split; [|split]].
  - intros e Hc. apply date_tool_rejects; [exact Hin|]. unfold precheck. now rewrite Hc.
  - intros c e Hc Hb. apply date_tool_rejects; [exact Hin|].
    unfold precheck. now rewrite Hc, Hb.
  - intros c e Hc Hb He. apply date_tool_rejects; [exact Hin|].
    unfold precheck. now rewrite Hc, Hb, He.
  - intros c Hc Hu. apply date_tool_rejects; [exact Hin|].
    unfold precheck. rewrite Hc, Hu. reflexivity.
Qed.

(** ** Further properties of the answers *)


Ltac plain_tac := intros r [= <-]; eauto.

Lemma list_handler_plain endpoint forwarded args w :
  plain (fst (list_handler endpoint forwarded args w)).
Proof.
  unfold list_handler, resolveCredentialsM. run_monad.
  destruct (resolveCredentials _ _ _) as [c|t]; [|intros r; discriminate].
  destruct (aqs _ _ _) as [[d|t] w']; simpl; [plain_tac | intros r; discriminate].
Qed.

Lemma sample_handler_plain endpoint location args w :
  plain (fst (sample_handler endpoint location args w)).
Proof.
  unfold sample_handler, bind.
  destruct (dated_request _ _ _ _) as [[d|t] w']; simpl; [plain_tac | intros r; discriminate].
Qed.

Lemma daily_handler_plain endpoint location args w :
  plain (fst (daily_handler endpoint location args w)).
Proof.
  unfold daily_handler, bind.
  destruct (dated_request _ _ _ _) as [[d|t] w']; simpl; [plain_tac | intros r; discriminate].
Qed.

Lemma quarterly_handler_plain endpoint location args w :
  plain (fst (quarterly_handler endpoint location args w)).
Proof.
  unfold quarterly_handler, bind.
  destruct (dated_request _ _ _ _) as [[d|t] w']; simpl; [plain_tac | intros r; discriminate].
Qed.

(** The handlers that catch what they throw always return. *)
Lemma monitor_handler_returns endpoint location args w :
  exists s, fst (monitor_handler endpoint location args w) = Ok (text_result s).
Proof.
  unfold monitor_handler, try_catch, bind.
  destruct (dated_request _ _ _ _) as [[d|t] w']; simpl; eauto.
Qed.

Lemma handleAnnualRequest_returns endpoint params locationParams w :
  exists s,
    fst (handleAnnualRequest endpoint params locationParams w) = Ok (text_result s).
Proof.
  unfold handleAnnualRequest, resolveCredentialsM. run_monad.
  destruct (resolveCredentials _ _ _) as [c|t]; [|simpl; eauto].
  destruct (validateDateFormat _ "bdate") as [[]|t]; [|simpl; eauto].
  destruct (validateDateFormat _ "edate") as [[]|t]; [|simpl; eauto].
  destruct (validateDateRange _ _) as [[]|t]; [|simpl; eauto].
  destruct (aqs _ _ _) as [[d|t] w']; simpl; eauto.
Qed.

Lemma signup_returns args w :
  exists s, fst (handler signupTool args w) = Ok (text_result s).
Proof.
  unfold signupTool, handler. run_monad.
  destruct (arg args "email") as [| |s]; simpl; eauto.
  destruct (String.eqb s ""); simpl; eauto.
  destruct (negb (Str.includes "@" s) || negb (Str.includes "." s)); simpl; eauto.
  destruct (aqs _ _ _) as [[d|t] w']; simpl; eauto.
  destruct (status_is_success _); simpl; eauto.
Qed.

Lemma isAvailable_returns args w :
  exists s, fst (handler isAvailableTool args w) = Ok (text_result s).
Proof.
  unfold isAvailableTool, handler, resolveCredentialsM. run_monad.
  destruct (resolveCredentials _ _ _) as [c|t].
  - destruct (aqs _ _ _) as [[d|t] w']; simpl.
    + destruct (status_is_success _); simpl; eauto.
    + destruct (Str.includes "Email is required" _ || _); simpl; eauto.
  - destruct (Str.includes "Email is required" _ || _); simpl; eauto.
Qed.


Lemma returns_plain o : (exists s, o = Ok (text_result s)) -> plain o.
Proof. intros (s & ->) r [= <-]. eauto. Qed.

Lemma every_handler_plain t args w : In t allTools -> plain (fst (handler t args w)).
Proof.
  intros Hin. unfold allTools in Hin.
  repeat (apply in_app_or in Hin as [Hin | Hin]).
  - each_tool Hin; apply returns_plain; [apply signup_returns | apply isAvailable_returns].
  - each_tool Hin; apply list_handler_plain.
  - each_tool Hin; apply returns_plain, monitor_handler_returns.
  - each_tool Hin; apply sample_handler_plain.
  - each_tool Hin; apply daily_handler_plain.
  - each_tool Hin; apply quarterly_handler_plain.
  - each_tool Hin; apply returns_plain, handleAnnualRequest_returns.
Qed.


(** X10. Every call is answered, and the answer holds exactly one text
    item. It carries the error flag exactly when the name is unknown or the
    handler threw; an answer a handler returned never carries it. *)
Theorem callTool_answer_shape (n : string) (args : gmap string JsVal) (w : World) :
  exists r,
    fst (callTool n args w) = Ok r /\
    List.length (content r) = 1%nat /\
    (isError r = None \/ isError r = Some true) /\
    (isError r = Some true <->
     toolMap !! n = None \/
     exists t thrown, toolMap !! n = Some t /\ fst (handler t args w) = Throw thrown).
Proof.
  unfold callTool. destruct (toolMap !! n) as [t|] eqn:E.
  - rewrite (dispatch_known _ _ _ _ _ E).
    pose proof (every_handler_plain t args w (proj1 (tool_map_lookup _ _ _ E))) as Hp.
    destruct (handler t args w) as [[r|thrown] w'] eqn:Eh; simpl in *.
    + destruct (Hp r eq_refl) as (s & ->). eexists. split; [reflexivity|].
      simpl. split; [reflexivity|]. split; [auto|]. split; [discriminate|].
      intros [H | (t' & th & [= <-] & H)]; [discriminate H|].
      rewrite Eh in H. discriminate H.
    + eexists. split; [reflexivity|]. simpl. split; [reflexivity|]. split; [auto|].
      split; [|reflexivity]. intros _. right. exists t, thrown.
      split; [reflexivity|]. now rewrite Eh.
  - rewrite (dispatch_unknown _ _ _ _ E). eexists. split; [reflexivity|]. simpl.
    split; [reflexivity|]. split; [auto|]. split; auto.
Qed.


(** X12. The table of tools loses none: each of the 31 tools is reached
    under its own name, where its handler runs with the arguments of the
    call; and a name that no tool has is answered as unknown, with the
    world left as it was. *)
Theorem tool_routing (n : string) (args : gmap string JsVal) (w : World) :
  List.length allTools = 31%nat /\
  (forall t, In t allTools -> name t = n ->
     toolMap !! n = Some t /\
     callTool n args w
     = match handler t args w with
       | (Ok r, w') => (Ok r, w')
       | (Throw thrown, w') => (Ok (flagged_answer thrown), w')
       end) /\
  (~ In n (List.map name allTools) ->
   callTool n args w = (Ok (unknown_answer n), w)).
Proof.
  split; [reflexivity|]. split.
  - intros t Hin <-. pose proof (toolMap_lookup t Hin) as Hl. split; [exact Hl|].
    unfold callTool. now rewrite (dispatch_known _ _ _ _ _ Hl).
  - intros Hn. unfold callTool. apply dispatch_unknown.
    destruct (toolMap !! n) as [t|] eqn:E; [|reflexivity].
    apply tool_map_lookup in E as [Hin <-]. exfalso. apply Hn.
    apply in_map_iff. eauto.
Qed.

(** ** Further properties of single tools *)


Lemma isAvailable_lookup : toolMap !! "aqs_is_available" = Some isAvailableTool.
Proof.
  apply (toolMap_lookup isAvailableTool). unfold allTools. apply in_or_app. left.
  right. left. reflexivity.
Qed.


Lemma resolveCredentials_failure e pe pk err :
  resolveCredentials e pe pk = raise err ->
  err = MissingCredential FieldEmail \/ err = MissingCredential FieldKey.
Proof.
  rewrite resolveCredentials_bool.
  destruct (truthy pe || _); [destruct (truthy pk || _)|]; intros [= <-]; auto.
Qed.

(** X14. The availability tool tells its failures apart by the text of the
    message: a message that holds one of the two phrases of a missing
    credential is answered as credentials required, any other as
    unavailable. Missing credentials are always answered in the first way,
    with nothing sent; a failure of the transport is answered in the first
    way only if its message happens to hold one of the phrases. *)
Theorem is_available_failures (args : gmap string JsVal) (w : World) :
  (forall e,
     resolveCredentials (env w) (arg args "email") (arg args "key") = raise e ->
     callTool "aqs_is_available" args w = (Ok (credentials_required (message e)), w)) /\
  (forall c thrown,
     resolveCredentials (env w) (arg args "email") (arg args "key") = Ok c ->
     fst (aqs "metaData/isAvailable" [("email", cred_email c); ("key", cred_key c)] w)
     = Throw thrown ->
     let msg := message_or "Unknown error occurred" thrown in
     fst (callTool "aqs_is_available" args w)
     = Ok (if Str.includes "Email is required" msg || Str.includes "API key is required" msg
           then credentials_required msg else unavailable msg)).
Proof.
  unfold callTool. rewrite (dispatch_known _ _ _ _ _ isAvailable_lookup).
  unfold isAvailableTool, handler, resolveCredentialsM. run_monad. split.
  - intros e He. rewrite He. simpl.
    destruct (resolveCredentials_failure _ _ _ _ He) as [-> | ->]; reflexivity.
  - intros c thrown Hc Ha. rewrite Hc.
    destruct (aqs _ _ w) as [[d|t] w']; simpl in *; [discriminate Ha|].
    injection Ha as ->.
    destruct (Str.includes "Email is required" _ || Str.includes "API key is required" _);
      reflexivity.
Qed.

(** X15. A resolved pair of credentials needs no environment: resolving
    it again gives it back, in any environment. And when the caller
    supplies both values the environment plays no part. *)
Theorem resolveCredentials_stable (e e' : gmap string string) (pe pk : JsVal) :
  (forall c, resolveCredentials e pe pk = Ok c ->
     resolveCredentials e' (cred_email c) (cred_key c) = Ok c) /\
  (yields pe -> yields pk ->
   resolveCredentials e pe pk = Ok {| cred_email := pe; cred_key := pk |}).
Proof.
  split.
  - intros c Hc. destruct (resolved_truthy _ _ _ _ Hc) as [He Hk].
    rewrite resolveCredentials_bool. unfold js_or. rewrite He, Hk. simpl.
    now destruct c.
  - intros He%truthy_yields Hk%truthy_yields.
    rewrite resolveCredentials_bool. unfold js_or. rewrite He, Hk. reflexivity.
Qed.

Lemma precheck_passes e args c b d :
  resolveCredentials e (arg args "email") (arg args "key") = Ok c ->
  arg args "bdate" = VStr b -> arg args "edate" = VStr d ->
  well_formed_date b -> well_formed_date d -> year_of b = year_of d ->
  precheck e args = Ok c.
Proof.
  intros Hc Hb Hd Wb Wd Hy. unfold precheck. rewrite Hc, Hb, Hd. simpl.
  rewrite !validateDateFormat_well_formed by assumption.
  destruct (validateDateRange_cases b d) as [[_ ->] | [Hne _]]; [reflexivity|].
  exfalso. apply Hne. apply same_year_prefix; [apply Wb | apply Wd | exact Hy].
Qed.

(** X16. The date-taking tools check nothing but the credentials and the
    two dates: with credentials that resolve and well-formed dates of one
    year, exactly one request is sent, carrying the resolved email and key
    and the two dates as given, whatever the other arguments are (a
    missing one is only left out of the query). *)
Theorem well_formed_call_is_sent (t : McpTool) (args : gmap string JsVal) (w : World)
    (c : Credentials) (b e : string) :
  In t dateTools ->
  resolveCredentials (env w) (arg args "email") (arg args "key") = Ok c ->
  arg args "bdate" = VStr b -> arg args "edate" = VStr e ->
  well_formed_date b -> well_formed_date e -> year_of b = year_of e ->
  exists start u,
    requests (snd (callTool (name t) args w)) = requests w ++ [(start, u)] /\
    lastRequestTime (snd (callTool (name t) args w)) = start /\
    In ("bdate", b) (searchParams u) /\ In ("edate", e) (searchParams u) /\
    carries "email" u /\ carries "key" u.
Proof.
  intros Hin Hc Hb He Wb We Hy.
  pose proof (precheck_passes _ _ _ _ _ Hc Hb He Wb We Hy) as Hpre.
  pose proof (toolMap_lookup t (dateTools_all t Hin)) as Hlook.
  destruct (date_tool_success t args w c Hin Hpre) as (ep & ps & Hw & Hpb & Hpe).
  destruct (every_tool_sends t args w (dateTools_all t Hin))
    as [Hq | (ep' & ps' & Hw' & Hce & Hck)].
  - exfalso. rewrite Hq in Hw. pose proof (requests_aqs ep ps w) as Hreq.
    rewrite <- Hw in Hreq. apply (f_equal (@List.length _)) in Hreq.
    rewrite length_app in Hreq. simpl in Hreq. lia.
  - unfold callTool. rewrite dispatch_world, Hlook.
    assert (Hsame : buildUrl ep' ps' = buildUrl ep ps).
    { pose proof (requests_aqs ep ps w) as H1. pose proof (requests_aqs ep' ps' w) as H2.
      rewrite <- Hw in H1. rewrite <- Hw' in H2. rewrite H1 in H2.
      apply app_inv_head in H2. now injection H2. }
    assert (Hnb : b <> EmptyString) by (intros ->; destruct Wb as [[Hl _] _]; discriminate Hl).
    assert (Hne : e <> EmptyString) by (intros ->; destruct We as [[Hl _] _]; discriminate Hl).
    rewrite Hb in Hpb. rewrite He in Hpe.
    assert (Hb' : In ("bdate", b) (searchParams (buildUrl ep ps))).
    { rewrite buildUrl_eq. cbn [searchParams]. apply in_non_empty_pairs. split; assumption. }
    assert (He' : In ("edate", e) (searchParams (buildUrl ep ps))).
    { rewrite buildUrl_eq. cbn [searchParams]. apply in_non_empty_pairs. split; assumption. }
    assert (Hname : name t <> "aqs_signup").
    { clear -Hin. unfold dateTools in Hin.
      repeat (apply in_app_or in Hin as [Hin | Hin]); each_tool Hin; discriminate. }
    rewrite Hw, requests_aqs. exists (lastRequestTime (snd (aqs ep ps w))), (buildUrl ep ps).
    split; [reflexivity|]. split; [reflexivity|].
    split; [exact Hb'|]. split; [exact He'|].
    rewrite <- Hsame. split; [exact Hce | exact (Hck Hname)].
Qed.

(** X17. The range check sees only the years: its verdict does not change
    when the two dates are swapped, a range of one day always passes, and
    two ranges that pass and share a date make a range that passes. *)
Theorem validateDateRange_same_year (a b c : string) :
  (validateDateRange a b = Ok tt <-> validateDateRange b a = Ok tt) /\
  validateDateRange a a = Ok tt /\
  (validateDateRange a b = Ok tt -> validateDateRange b c = Ok tt ->
   validateDateRange a c = Ok tt).
Proof.
  assert (Hiff : forall x y, validateDateRange x y = Ok tt
                             <-> Str.js_substring 0 4 x = Str.js_substring 0 4 y).
  { intros x y. destruct (validateDateRange_cases x y) as [[He ->] | [Hn ->]].
    - tauto.
    - split; [discriminate | contradiction]. }
  rewrite !Hiff. repeat split; congruence.
Qed.

Lemma throwing_all t : In t throwingTools -> In t allTools.
Proof.
  unfold throwingTools, allTools. intros H.
  repeat (apply in_app_or in H as [H | H]);
    repeat (apply in_or_app; first [left; exact H | right]); try exact H.
Qed.

Lemma throwing_handler_rejects t args w e :
  In t throwingTools ->
  resolveCredentials (env w) (arg args "email") (arg args "key") = raise e ->
  handler t args w = (Throw (ThrowError e), w).
Proof.
  intros Hin Hc. unfold raise in Hc.
  assert (Hpre : precheck (env w) args = Throw (ThrowError e))
    by (unfold precheck; now rewrite Hc).
  unfold throwingTools in Hin.
  repeat (apply in_app_or in Hin as [Hin | Hin]).
  - each_tool Hin; cbn [handler listStatesTool listCountiesTool listSitesTool listCbsasTool
                          listParameterClassesTool listParametersTool];
      match goal with
      | |- context [list_handler ?ep ?fw] =>
          pose proof (list_handler_cases ep fw args w) as H
      end; rewrite Hc in H; exact H.
  - each_tool Hin; simpl;
      match goal with
      | |- context [sample_handler ?ep ?loc] =>
          pose proof (sample_handler_cases ep loc args w) as H
      end; rewrite Hpre in H; exact H.
  - each_tool Hin; simpl;
      match goal with
      | |- context [daily_handler ?ep ?loc] =>
          pose proof (daily_handler_cases ep loc args w) as H
      end; rewrite Hpre in H; exact H.
  - each_tool Hin; simpl;
      match goal with
      | |- context [quarterly_handler ?ep ?loc] =>
          pose proof (quarterly_handler_cases ep loc args w) as H
      end; rewrite Hpre in H; exact H.
Qed.

(** X18. The tools of lists.ts, samples.ts, daily.js and quarterly.js
    catch nothing: when the credentials do not resolve, a call of one of
    these nineteen tools is answered by the dispatcher, with the error
    flag set and the message of the missing credential after the word
    Error, and the world is left as it was. *)
Theorem throwing_tools_flag_failures (t : McpTool) (args : gmap string JsVal) (w : World)
    (e : AqsError) :
  In t throwingTools ->
  resolveCredentials (env w) (arg args "email") (arg args "key") = raise e ->
  List.length throwingTools = 19%nat /\
  callTool (name t) args w = (Ok (flagged_answer (ThrowError e)), w) /\
  isError (flagged_answer (ThrowError e)) = Some true /\
  text <$> content (flagged_answer (ThrowError e)) = ["Error: " +:+ message e].
Proof.
  intros Hin Hc. split; [reflexivity|]. split; [|split; reflexivity].
  unfold callTool. rewrite (dispatch_known _ _ _ _ _ (toolMap_lookup t (throwing_all t Hin))).
  now rewrite (throwing_handler_rejects t args w e Hin Hc).
Qed.

(** ** Instances *)

(** The scenario of the specification: one GET, to the states list, with
    the two credentials percent-encoded in the query. *)
Example list_states_request :
  List.map (fun r => URL.toString (snd r))
    (requests (snd (callTool "aqs_list_states" demo_credentials demo_world)))
  = ["https://aqs.epa.gov/data/api/list/states?email=a%40b.com&key=k"].
Proof. vm_compute. reflexivity. Qed.

(** A same-year range goes through: the request is sent. *)
Example same_year_request :
  List.map (fun r => URL.toString (snd r))
    (requests (snd (callTool "aqs_daily_summary_by_state"
                      (<["bdate" := VStr "20240101"]>
                         (<["edate" := VStr "20241231"]>
                            (<["param" := VStr "44201"]>
                               (<["state" := VStr "06"]> demo_credentials))))
                      demo_world)))
  = ["https://aqs.epa.gov/data/api/dailyData/byState?email=a%40b.com&key=k&param=44201&bdate=20240101&edate=20241231&state=06"].
Proof. vm_compute. reflexivity. Qed.

(** Four calls in a row: the second fails its date check and sends nothing,
    the third waits for the rest of the interval, the fourth comes late
    enough to go at once. *)
Lemma throttle_spacing_witness :
  request_starts (serve demo_calls demo_world)
  = [1700000000000; 1700000005007; 1700000014023] /\
  RATE_LIMIT_MS <= 1700000005007 - 1700000000000.
Proof.
  split; [vm_compute; reflexivity|].
  apply (proj1 (proj2 (throttle_spacing demo_calls demo_world
                         ltac:(repeat constructor; lia)
                         ltac:(repeat constructor; simpl; lia)
                         eq_refl))
           ltac:(simpl; lia) 0%nat);
    vm_compute; reflexivity.
Defined.

Lemma list_states_is_a_tool : In listStatesTool allTools.
Proof.
  unfold allTools. apply in_or_app. right. apply in_or_app. left. left. reflexivity.
Qed.

Lemma sample_by_site_is_dated : In sampleDataBySite dateTools.
Proof.
  unfold dateTools. apply in_or_app. right. apply in_or_app. left. left. reflexivity.
Qed.

(** The claim as stated fails here: the error thrown by the handler of
    aqs_list_states (a known tool) is answered with the error flag set. *)
Lemma caught_error_is_flagged :
  toolMap !! "aqs_list_states" <> None /\
  fst (handler listStatesTool ∅ demo_world) = raise (MissingCredential FieldEmail) /\
  fst (callTool "aqs_list_states" ∅ demo_world)
  = Ok {| content :=
            [ {| text := "Error: Email is required. Provide it as a parameter or set AQS_EMAIL environment variable." |} ];
          isError := Some true |}.
Proof.
  split; [|split].
  - change "aqs_list_states" with (name listStatesTool).
    rewrite (toolMap_lookup _ list_states_is_a_tool). discriminate.
  - vm_compute. reflexivity.
  - vm_compute. reflexivity.
Qed.

(** The same call, through the amended statement. *)
Lemma dispatch_spec_witness :
  dispatch toolMap "aqs_list_states" ∅ demo_world
  = (Ok {| content :=
             [ {| text := "Error: " +:+ thrown_text (ThrowError (MissingCredential FieldEmail)) |} ];
           isError := Some true |}, demo_world).
Proof.
  apply (proj2 (proj2 (proj2 (dispatch_spec toolMap "aqs_list_states" ∅ demo_world))
                  listStatesTool (toolMap_lookup _ list_states_is_a_tool))).
  vm_compute. reflexivity.
Defined.

(** The claim as stated fails here: the registration request reaches the
    transport with the email as its only query pair. *)
Lemma signup_request_lacks_key :
  exists t u,
    requests (snd (callTool "aqs_signup" demo_credentials demo_world)) = [(t, u)] /\
    searchParams u = [("email", "a@b.com")] /\
    ~ carries "key" u.
Proof.
  exists 1700000000000,
         {| href := "https://aqs.epa.gov/data/api/signup";
            searchParams := [("email", "a@b.com")] |}.
  split; [vm_compute; reflexivity|]. split; [reflexivity|].
  intros (v & [H|[]] & _). discriminate H.
Qed.

(** A list request carries the key. *)
Lemma requests_carry_credentials_witness :
  exists new,
    requests (snd (callTool "aqs_list_states" demo_credentials demo_world))
    = requests demo_world ++ new /\
    Forall (fun r => carries "key" (snd r)) new.
Proof.
  destruct (requests_carry_credentials "aqs_list_states" demo_credentials demo_world)
    as (new & Hreq & _ & _ & Hkey & _).
  exists new. split; [exact Hreq|]. apply Hkey. discriminate.
Defined.

Lemma token_20240231 : is_date_token "20240231".
Proof. split; [reflexivity | repeat constructor]. Qed.

(** The thirty-first of February passes the format check. *)
Lemma validateDateFormat_spec_witness :
  is_date_token "20240231" /\ validateDateFormat "20240231" "bdate" = Ok tt.
Proof.
  split; [exact token_20240231|].
  apply (proj2 (proj1 (proj2 (validateDateFormat_spec "20240231" "bdate")) token_20240231));
    vm_compute; split; discriminate.
Defined.

(** New Year's Eve to New Year's Day crosses the year. *)
Lemma validateDateRange_spec_witness :
  validateDateRange "20231231" "20240101" = raise (CrossYearRange "20231231" "20240101").
Proof.
  apply (proj1 (proj1 (proj2 (proj2 (validateDateRange_spec "20231231" "20240101")))
                  ltac:(split; [reflexivity | repeat constructor])
                  ltac:(split; [reflexivity | repeat constructor]))).
  vm_compute. discriminate.
Defined.

(** A key alone, with an empty environment: the email is reported missing. *)
Lemma resolveCredentials_spec_witness :
  resolveCredentials ∅ VUndefined (VStr "k") = raise (MissingCredential FieldEmail).
Proof.
  apply (proj1 (proj2 (proj2 (resolveCredentials_spec ∅ VUndefined (VStr "k"))))).
  split; intros (s & H & _); discriminate H.
Defined.

(** An empty county is left out of the query. *)
Lemma buildUrl_spec_witness :
  ~ In "county"
      (List.map fst
         (searchParams
            (buildUrl "list/sitesByCounty"
               [("email", VStr "a@b.com"); ("key", VStr "k"); ("state", VStr "06");
                ("county", VStr "")]))).
Proof.
  apply (proj2 (proj2 (proj2 (buildUrl_spec "list/sitesByCounty"
                                [("email", VStr "a@b.com"); ("key", VStr "k");
                                 ("state", VStr "06"); ("county", VStr "")])))
           "county" (VStr "")).
  - compute_done.
  - simpl. auto.
  - auto.
Defined.

(** A 404 answer. *)
Lemma aqs_classification_witness :
  fst (aqs "list/states" [("email", VStr "a@b.com"); ("key", VStr "k")] moody_world)
  = raise (TransportError (HttpStatusError 404 "Not Found")).
Proof.
  apply (proj1 (proj2 (aqs_classification "list/states"
                         [("email", VStr "a@b.com"); ("key", VStr "k")] moody_world
                         (mkHttp 404 "Not Found"
                            (inl (ThrowError (RuntimeError "Unexpected token"))))
                         eq_refl))).
  reflexivity.
Defined.

Lemma date_20230601 : well_formed_date "20230601".
Proof.
  split; [split; [reflexivity | repeat constructor]|].
  vm_compute. repeat split; discriminate.
Qed.

Lemma date_20240601 : well_formed_date "20240601".
Proof.
  split; [split; [reflexivity | repeat constructor]|].
  vm_compute. repeat split; discriminate.
Qed.

(** The scenario of the specification: June 2023 to June 2024. *)
Lemma cross_year_rejected_before_gate_witness :
  snd (callTool "aqs_sample_data_by_site" cross_year_args demo_world) = demo_world.
Proof.
  apply (proj1 (proj2 (cross_year_rejected_before_gate sampleDataBySite cross_year_args
                         demo_world sample_by_site_is_dated)
                  "20230601" "20240601"
                  ltac:(vm_compute; reflexivity)
                  ltac:(vm_compute; reflexivity)
                  date_20230601 date_20240601
                  ltac:(vm_compute; discriminate))).
Defined.

(** An empty email with an empty environment is a missing email. *)
Lemma empty_credential_is_absent_witness :
  resolveCredentials ∅ (VStr "") (VStr "k") = raise (MissingCredential FieldEmail).
Proof.
  apply (proj1 (proj2 (proj2 (proj2 (proj2 (empty_credential_is_absent ∅ (VStr "k"))))))).
  intros (s & H & _). discriminate H.
Defined.

(** ** Further instances *)

(** Two seconds after a request the gate waits three, and the timer is
    thirty seconds late. *)
Lemma enforceRateLimit_wait_witness :
  now (snd (enforceRateLimit offline_world)) = 1700000033000 /\
  stderr (snd (enforceRateLimit offline_world))
  = ["[AQS] Rate limiting: waiting 3000ms before next request"].
Proof.
  destruct (proj2 (proj2 (proj2 (enforceRateLimit_wait offline_world)))
              ltac:(simpl; lia) ltac:(unfold RATE_LIMIT_MS; simpl; lia))
    as (Hn & _ & Hs).
  split; [exact Hn | exact Hs].
Defined.

(** A fetch that is rejected. *)
Lemma aqs_throws_transport_errors_witness :
  fst (aqs "list/states" [("email", VStr "a@b.com"); ("key", VStr "k")] offline_world)
  = raise (TransportError (RuntimeError "fetch failed")).
Proof.
  apply (proj1 (proj2 (aqs_throws_transport_errors "list/states"
                         [("email", VStr "a@b.com"); ("key", VStr "k")] offline_world))).
  reflexivity.
Defined.

(** The first and the third request of the four calls. *)
Lemma throttle_rate_bound_witness :
  RATE_LIMIT_MS * Z.of_nat 2 <= 1700000014023 - 1700000000000.
Proof.
  apply (proj1 (throttle_rate_bound demo_calls demo_world
                  ltac:(repeat constructor; lia)
                  ltac:(repeat constructor; simpl; lia)
                  eq_refl ltac:(simpl; lia))
           0%nat 2%nat);
    vm_compute; reflexivity.
Defined.

Lemma token_18001340 : is_date_token "18001340".
Proof. split; [reflexivity | repeat constructor]. Qed.

(** Month, day and year are all out of range: the month is reported. *)
Lemma validateDateFormat_first_failure_witness :
  validateDateFormat "18001340" "bdate"
  = raise (InvalidDateValue "bdate" PartMonth (Some 13)).
Proof.
  apply (proj1 (validateDateFormat_first_failure "18001340" "bdate" token_18001340)).
  right. vm_compute. reflexivity.
Defined.

(** The sample tool, called with a range within 2024. *)
Lemma dated_requests_are_validated_witness :
  exists new,
    requests (snd (callTool "aqs_sample_data_by_site" bare_range_args demo_world))
    = requests demo_world ++ new /\
    Forall (fun r =>
              exists b e,
                In ("bdate", b) (searchParams (snd r)) /\
                In ("edate", e) (searchParams (snd r)) /\
                well_formed_date b /\ well_formed_date e /\ year_of b = year_of e) new.
Proof.
  exact (dated_requests_are_validated sampleDataBySite bare_range_args demo_world
           sample_by_site_is_dated).
Defined.

(** Credentials and no dates: the begin date is reported, as the text
    undefined. *)
Lemma date_tool_first_failure_witness :
  rejected_with "aqs_sample_data_by_site" demo_credentials demo_world
    (InvalidDateFormat "bdate" "undefined").
Proof.
  apply (proj2 (proj2 (proj2 (date_tool_first_failure sampleDataBySite demo_credentials
                                demo_world sample_by_site_is_dated)))
           {| cred_email := VStr "a@b.com"; cred_key := VStr "k" |});
    vm_compute; reflexivity.
Defined.



(** A name that no tool has. *)
Lemma tool_routing_witness :
  callTool "aqs_list_everything" demo_credentials demo_world
  = (Ok (unknown_answer "aqs_list_everything"), demo_world).
Proof.
  apply (proj2 (proj2 (tool_routing "aqs_list_everything" demo_credentials demo_world))).
  intros H. vm_compute in H.
  repeat (destruct H as [H | H]; [discriminate H|]). exact H.
Defined.


(** No credentials at all. *)
Lemma is_available_failures_witness :
  callTool "aqs_is_available" ∅ demo_world
  = (Ok (credentials_required
           "Email is required. Provide it as a parameter or set AQS_EMAIL environment variable."),
     demo_world).
Proof.
  apply (proj1 (is_available_failures ∅ demo_world) (MissingCredential FieldEmail)).
  vm_compute. reflexivity.
Defined.

(** Credentials that came from the environment resolve again without it. *)
Lemma resolveCredentials_stable_witness :
  resolveCredentials ∅ (VStr "env@example.org") (VStr "envkey")
  = Ok {| cred_email := VStr "env@example.org"; cred_key := VStr "envkey" |}.
Proof.
  apply (proj1 (resolveCredentials_stable (env offline_world) ∅ VUndefined VUndefined)
           {| cred_email := VStr "env@example.org"; cred_key := VStr "envkey" |}).
  vm_compute. reflexivity.
Defined.

Lemma date_20240101 : well_formed_date "20240101".
Proof.
  split; [split; [reflexivity | repeat constructor]|].
  vm_compute. repeat split; discriminate.
Qed.

Lemma date_20241231 : well_formed_date "20241231".
Proof.
  split; [split; [reflexivity | repeat constructor]|].
  vm_compute. repeat split; discriminate.
Qed.

(** The sample tool with a range and neither parameter code nor place: the
    request is sent all the same. *)
Lemma well_formed_call_is_sent_witness :
  exists start u,
    requests (snd (callTool "aqs_sample_data_by_site" bare_range_args demo_world))
    = requests demo_world ++ [(start, u)] /\
    lastRequestTime (snd (callTool "aqs_sample_data_by_site" bare_range_args demo_world))
    = start /\
    In ("bdate", "20240101") (searchParams u) /\ In ("edate", "20241231") (searchParams u) /\
    carries "email" u /\ carries "key" u.
Proof.
  exact (well_formed_call_is_sent sampleDataBySite bare_range_args demo_world
           {| cred_email := VStr "a@b.com"; cred_key := VStr "k" |}
           "20240101" "20241231" sample_by_site_is_dated
           ltac:(vm_compute; reflexivity) ltac:(vm_compute; reflexivity)
           ltac:(vm_compute; reflexivity)
           date_20240101 date_20241231 ltac:(vm_compute; reflexivity)).
Defined.

(** An end before the begin, in the same year. *)
Lemma validateDateRange_same_year_witness :
  validateDateRange "20241231" "20240101" = Ok tt.
Proof.
  apply (proj1 (proj1 (validateDateRange_same_year "20240101" "20241231" "20240101"))).
  vm_compute. reflexivity.
Defined.

Lemma list_states_is_throwing : In listStatesTool throwingTools.
Proof. unfold throwingTools. apply in_or_app. left. left. reflexivity. Qed.

(** The states list, called without credentials. *)
Lemma throwing_tools_flag_failures_witness :
  callTool "aqs_list_states" ∅ demo_world
  = (Ok (flagged_answer (ThrowError (MissingCredential FieldEmail))), demo_world).
Proof.
  apply (fun H => proj1 (proj2 (throwing_tools_flag_failures listStatesTool ∅ demo_world
                                  (MissingCredential FieldEmail) list_states_is_throwing H))).
  vm_compute. reflexivity.
Defined.
